(** * Elevation of Privilege: threat-model transformation core

    A shallow embedding of the export handlers of the server
    ([apps/server/src/endpoints.ts]), of the Threat Dragon V2 to JointJS
    adapter of the client ([apps/client/src/components/model/model.tsx]) and
    of the helper [escapeMarkdownText] ([packages/shared/src/utils/utils.ts]),
    followed by the properties of the threat-model specification that concern
    them.

    Conventions of the embedding.
    - A JavaScript string is a [string]: a sequence of code units below 256.
    - A JavaScript number read from a JSON document is a rational [Q]; the
      code only copies numbers and tests them for zero.
    - An optional property is an [option]; [None] stands for a property that
      is absent or [undefined].  Where the code guards a read with [typeof],
      [None] also stands for a value of another type.
    - A plain object enumerated with [Object.keys]/[Object.values] is an
      association list in enumeration order; a property read is the first
      match.
    - An exception is an explicit outcome, and the effects performed before
      it stay in the store. *)

From Stdlib Require Import Ascii String QArith.
From stdpp Require Import base option list gmap strings pretty.

Local Open Scope string_scope.
Set Warnings "-register-all".
Set Default Proof Using "Type".

(** ** JavaScript strings *)

Module JsString.

(** [WhiteSpace] and [LineTerminator] code units below 256: TAB, LF, VT, FF,
    CR, SP and NBSP.  These are the code units [trim] and [parseInt] strip. *)
Definition isWhiteSpace (c : ascii) : bool :=
  let n := nat_of_ascii c in
  (n =? 9)%nat || (n =? 10)%nat || (n =? 11)%nat || (n =? 12)%nat
  || (n =? 13)%nat || (n =? 32)%nat || (n =? 160)%nat.

Fixpoint trimStart (s : string) : string :=
  match s with
  | String c r => if isWhiteSpace c then trimStart r else s
  | EmptyString => EmptyString
  end.

Definition isEmpty (s : string) : bool :=
  match s with EmptyString => true | String _ _ => false end.

Fixpoint trimEnd (s : string) : string :=
  match s with
  | String c r =>
      let r' := trimEnd r in
      if isWhiteSpace c && isEmpty r' then EmptyString else String c r'
  | EmptyString => EmptyString
  end.

(** [s.trim()] *)
Definition trim (s : string) : string := trimEnd (trimStart s).

(** Truthiness of a string: a string is falsy exactly when it is empty. *)
Definition truthy (s : string) : bool := negb (isEmpty s).

(** [s.replaceAll(c, rep)] for a pattern of one code unit. *)
Fixpoint replaceAll (pat : ascii) (rep : string) (s : string) : string :=
  match s with
  | String c r =>
      if Ascii.eqb c pat then rep +:+ replaceAll pat rep r
      else String c (replaceAll pat rep r)
  | EmptyString => EmptyString
  end.

(** [s.replace(c, rep)] for a string pattern of one code unit: only the
    first occurrence is replaced. *)
Fixpoint replaceFirst (pat : ascii) (rep : string) (s : string) : string :=
  match s with
  | String c r =>
      if Ascii.eqb c pat then rep +:+ r
      else String c (replaceFirst pat rep r)
  | EmptyString => EmptyString
  end.

(** [s.replace(/[...]/gm, f)] where the class is given by [p] and the
    replacement of a matched code unit [c] by [f c]. *)
Fixpoint replaceClass (p : ascii -> bool) (f : ascii -> string) (s : string)
  : string :=
  match s with
  | String c r =>
      if p c then f c +:+ replaceClass p f r
      else String c (replaceClass p f r)
  | EmptyString => EmptyString
  end.

(** [s.replace(/(c1|c2|...)+/gm, rep)]: every maximal run of code units of
    the class [p] becomes one [rep]; [inRun] tells that the previous code
    unit belonged to a run already replaced. *)
Fixpoint replaceRuns (p : ascii -> bool) (rep : string) (inRun : bool)
    (s : string) : string :=
  match s with
  | String c r =>
      if p c then
        (if inRun then EmptyString else rep) +:+ replaceRuns p rep true r
      else String c (replaceRuns p rep false r)
  | EmptyString => EmptyString
  end.

(** [s.startsWith(p)] *)
Definition startsWith (p s : string) : bool := String.prefix p s.

(** Value of a digit in the given radix, if the code unit is one. *)
Definition digitValue (radix : Z) (c : ascii) : option Z :=
  let n := Z.of_nat (nat_of_ascii c) in
  let v :=
    if (48 <=? n)%Z && (n <=? 57)%Z then Some (n - 48)%Z
    else if (97 <=? n)%Z && (n <=? 122)%Z then Some (n - 87)%Z
    else if (65 <=? n)%Z && (n <=? 90)%Z then Some (n - 55)%Z
    else None in
  match v with
  | Some d => if (d <? radix)%Z then Some d else None
  | None => None
  end.

(** The longest prefix of digits, read in the given radix; [None] when the
    prefix is empty. *)
Fixpoint digitsPrefix (radix : Z) (acc : option Z) (s : string) : option Z :=
  match s with
  | String c r =>
      match digitValue radix c with
      | Some d =>
          digitsPrefix radix
            (Some (match acc with Some a => a * radix + d | None => d end)%Z)
            r
      | None => acc
      end
  | EmptyString => acc
  end.

(** [Number.parseInt(s)] without a radix: leading white space is skipped,
    one sign is read, a [0x]/[0X] prefix selects radix 16, and the longest
    prefix of digits is the result; [None] is [NaN].  The value is exact,
    where JavaScript rounds to a double: the two agree below 2^53, and
    above it both are beyond the length of any array. *)
Definition parseInt (s : string) : option Z :=
  let s1 := trimStart s in
  let '(sign, s2) :=
    match s1 with
    | String "-" r => ((-1)%Z, r)
    | String "+" r => (1%Z, r)
    | _ => (1%Z, s1)
    end in
  let '(radix, s3) :=
    match s2 with
    | String "0" (String "x" r) => (16%Z, r)
    | String "0" (String "X" r) => (16%Z, r)
    | _ => (10%Z, s2)
    end in
  match digitsPrefix radix None s3 with
  | Some n => Some (sign * n)%Z
  | None => None
  end.

(** [arr[n]] for a number [n] that may be [NaN], negative or out of range. *)
Definition index {A} (l : list A) (n : option Z) : option A :=
  match n with
  | Some z => if (z <? 0)%Z then None else l !! Z.to_nat z
  | None => None
  end.

End JsString.

(** ** JavaScript values *)

Module Js.

(** A value of type [unknown] found in a parsed document.  An array may
    carry named properties next to its items, since the adapter can add
    one. *)
Inductive JsValue : Type :=
| JsNull
| JsBool (b : bool)
| JsNum (q : Q)
| JsStr (s : string)
| JsArr (items : list JsValue) (props : list (string * JsValue))
| JsObj (props : list (string * JsValue)).

(** A plain object: its own properties in enumeration order. *)
Abbreviation JsObject := (list (string * JsValue)).

(** The exceptions the modelled code can raise. *)
Inductive JsError : Type :=
| TypeError (msg : string).

(** What a call yields: a value, or an exception. *)
Inductive Outcome (A : Type) : Type :=
| Returned (a : A)
| Raised (e : JsError).
Arguments Returned {A} a.
Arguments Raised {A} e.

(** [o[k]] on an association list: the first entry of key [k]. *)
Fixpoint assoc {A} (k : string) (o : list (string * A)) : option A :=
  match o with
  | (k', v) :: o' => if String.eqb k' k then Some v else assoc k o'
  | [] => None
  end.

(** [Object.keys(o)] and [Object.values(o)]. *)
Definition keys {A} (o : list (string * A)) : list string := o.*1.
Definition values {A} (o : list (string * A)) : list A := o.*2.

(** [o[k] = v]: an existing property keeps its place, a new one comes
    last. *)
Fixpoint setProp {A} (k : string) (v : A) (o : list (string * A))
  : list (string * A) :=
  match o with
  | (k', v') :: o' =>
      if String.eqb k' k then (k', v) :: o' else (k', v') :: setProp k v o'
  | [] => [(k, v)]
  end.

(** [v[k]] for a value that is neither [null] nor [undefined] and a key
    [k] that no prototype defines: a primitive has no such property. *)
Definition getProp (k : string) (v : JsValue) : option JsValue :=
  match v with
  | JsObj props => assoc k props
  | JsArr _ props => assoc k props
  | JsNull | JsBool _ | JsNum _ | JsStr _ => None
  end.

(** [v?.[k]] where [v] itself may be absent: [null] and [undefined] give
    [undefined]. *)
Definition optProp (k : string) (v : option JsValue) : option JsValue :=
  match v with
  | Some JsNull | None => None
  | Some v' => getProp k v'
  end.

(** [v[k] = x] in strict-mode code (every ECMAScript module is strict):
    an object or an array takes the property, a primitive raises a
    [TypeError]. *)
Definition putProp (k : string) (x : JsValue) (v : JsValue)
  : Outcome JsValue :=
  match v with
  | JsObj props => Returned (JsObj (setProp k x props))
  | JsArr items props => Returned (JsArr items (setProp k x props))
  | JsNull | JsBool _ | JsNum _ | JsStr _ =>
      Raised (TypeError ("Cannot create property '" +:+ k +:+ "'"))
  end.

(** [typeof v === 'string' ? v : undefined] *)
Definition asString (v : option JsValue) : option string :=
  match v with
  | Some (JsStr s) => Some s
  | _ => None
  end.

(** Truthiness of a number that may be absent: [0] and [undefined] are
    falsy. *)
Definition truthyNum (n : option Q) : bool :=
  match n with
  | Some q => negb (Qeq_bool q 0)
  | None => false
  end.

(** [!!b] for a boolean that may be absent. *)
Definition toBool (b : option bool) : bool := default false b.

End Js.

(** ** The shared package *)

Module Shared.
Import JsString.

(** [enum ModelType] *)
Definition ModelType_THREAT_DRAGON : string := "Threat Dragon".
Definition ModelType_PRIVACY_ENHANCED : string := "Default".
Definition ModelType_IMAGE : string := "Image".

(** The code units of the class [[![\]()]]. *)
Definition isBracketOrBang (c : ascii) : bool :=
  Ascii.eqb c "!" || Ascii.eqb c "[" || Ascii.eqb c "]"
  || Ascii.eqb c "(" || Ascii.eqb c ")".

(** [escapeMarkdownText]: three replacements in a row; [*] and [_] are left
    alone. *)
Definition escapeMarkdownText (text : string) : string :=
  replaceAll ">" "&gt;"
    (replaceAll "<" "&lt;"
       (replaceClass isBracketOrBang (fun c => String "\" (String c "")) text)).

(** Modelled from the spec: the card definitions of the shared package
    ([GameMode], [getSuitDisplayName], [isSuit]) are outside the files at
    hand.  The handlers use the three game modes that have a methodology
    name, the display name of a suit in a game mode, and the test that a
    string is a suit; they are taken as given. *)
Record CardDefinitions : Type := {
  GameMode_EOP : string;
  GameMode_CORNUCOPIA : string;
  GameMode_CUMULUS : string;
  getSuitDisplayName : option string -> option string -> string;
  isSuit : string -> bool
}.

End Shared.

(** ** The Threat Dragon V2 document *)

Module ThreatDragon.
Import Js.

(** [ThreatV2], with the properties the handlers add ([owner], [game],
    [category]); [threat_extra] holds the properties the code only
    copies. *)
Record ThreatV2 : Type := {
  threat_id : option string;
  threat_title : option string;
  threat_status : option string;
  threat_severity : option string;
  threat_type : option string;
  threat_description : option string;
  threat_mitigation : option string;
  threat_modelType : option string;
  threat_owner : option string;
  threat_game : option string;
  threat_category : option string;
  threat_extra : JsObject
}.

Record PointV2 : Type := { x : Q; y : Q }.

Record SizeV2 : Type := { width : Q; height : Q }.

Record EdgeEndV2 : Type := {
  end_cell : option string;
  end_port : option string;
  end_x : option Q;
  end_y : option Q
}.

Record EdgeLabelV2 : Type := {
  label_attrs : option JsObject;
  (** [position?.distance], when it is a number *)
  label_distance : option Q
}.

(** [CellDataV2]: the base properties and those of a flow. *)
Record CellDataV2 : Type := {
  data_type : option string;
  data_name : option string;
  data_description : option string;
  data_outOfScope : option bool;
  data_reasonOutOfScope : option string;
  data_hasOpenThreats : option bool;
  data_isTrustBoundary : option bool;
  data_threats : option (list ThreatV2);
  data_isBidirectional : option bool;
  data_isEncrypted : option bool;
  data_isPublicNetwork : option bool;
  data_protocol : option string
}.

Record CellV2 : Type := {
  cell_id : string;
  cell_shape : string;
  cell_zIndex : option Q;
  cell_attrs : option JsObject;
  cell_data : option CellDataV2;
  cell_visible : option bool;
  cell_position : option PointV2;
  cell_size : option SizeV2;
  cell_source : option EdgeEndV2;
  cell_target : option EdgeEndV2;
  cell_vertices : option (list PointV2);
  cell_connector : option string;
  cell_labels : option (list EdgeLabelV2)
}.

Record DiagramV2 : Type := {
  diagram_id : Z;
  diagram_title : string;
  diagramType : string;
  cells : option (list CellV2)
}.

Record ThreatDragonSummaryV2 : Type := { title : string }.

Record ThreatDragonDetailV2 : Type := {
  contributors : list string;
  diagrams : list DiagramV2;
  diagramTop : Z;
  threatTop : Z;
  reviewer : string
}.

Record ThreatDragonModelV2 : Type := {
  version : string;
  summary : ThreatDragonSummaryV2;
  detail : ThreatDragonDetailV2
}.

End ThreatDragon.

(** ** The client: Threat Dragon V2 to JointJS graph JSON *)

Module Model.
Import Js JsString ThreatDragon.

(** [type JointEdgeEnd]: [{id, port?}], [{x, y}] or [{}]. *)
Inductive JointEdgeEnd : Type :=
| EndId (id : string) (port : option string)
| EndPoint (px py : Q)
| EndEmpty.

(** [type JointLabel]: [{position, attrs: {text: {text}}}]. *)
Record JointLabel : Type := {
  position : Q;
  text : string
}.

Record JointCellBase : Type := {
  id : string;
  type : string;
  z : Q;
  attrs : JsObject;
  description : option string;
  hasOpenThreats : option bool;
  outOfScope : option bool;
  reasonOutOfScope : option string;
  isTrustBoundary : option bool;
  threats : option (list ThreatV2);
  visible : option bool
}.

Record JointNodeCell : Type := {
  node_base : JointCellBase;
  node_position : PointV2;
  node_size : SizeV2
}.

Record JointEdgeCell : Type := {
  edge_base : JointCellBase;
  source : JointEdgeEnd;
  target : JointEdgeEnd;
  vertices : list PointV2;
  smooth : option bool;
  labels : option (list JointLabel);
  isBidirectional : option bool;
  isEncrypted : option bool;
  isPublicNetwork : option bool;
  protocol : option string
}.

(** [type JointCell = JointNodeCell | JointEdgeCell] *)
Inductive JointCell : Type :=
| NodeCell (n : JointNodeCell)
| EdgeCell (e : JointEdgeCell).

Definition mapToJointType (shape : string) (dataType : option string)
  : string :=
  let fallback :=
    if String.eqb shape "process" then "tm.Process"
    else if String.eqb shape "actor" then "tm.Actor"
    else if String.eqb shape "store" then "tm.Store"
    else if String.eqb shape "flow" then "tm.Flow"
    else if String.eqb shape "trust-boundary-curve" then "tm.Boundary"
    else if String.eqb shape "trust-boundary-box" then "tm.Boundary"
    else "tm.Process" in
  match dataType with
  | Some dt =>
      if startsWith "tm." dt then
        if String.eqb dt "tm.BoundaryBox" then "tm.Boundary"
        else if String.eqb dt "tm.Text" then "tm.Process"
        else dt
      else fallback
  | None => fallback
  end.

Definition mapEdgeEnd (e : option EdgeEndV2) : JointEdgeEnd :=
  match e with
  | None => EndEmpty
  | Some e =>
      match end_x e, end_y e with
      | Some ex, Some ey => EndPoint ex ey
      | _, _ =>
          match end_cell e with
          | Some c => EndId c (end_port e)
          | None => EndEmpty
          end
      end
  end.

(** [typeof v === 'string' && v.trim()] *)
Definition nonBlank (v : option string) : bool :=
  match v with
  | Some s => truthy (trim s)
  | None => false
  end.

Definition getV2CellName (cell : CellV2) : string :=
  let name := cell_data cell ≫= data_name in
  if nonBlank name then default "" name
  else
    match cell_attrs cell with
    | Some a =>
        let t1 := asString (optProp "text" (assoc "text" a)) in
        if nonBlank t1 then default "" t1
        else
          let t2 := asString (optProp "text" (assoc "label" a)) in
          if nonBlank t2 then default "" t2 else ""
    | None => ""
    end.

(** [normalizeAttrs].  [attrs] is a copy of the properties of
    [cell.attrs]; [textObj] is the object [attrs.text] itself, or a new
    empty object when there is none, and the write of the name goes to that
    object, so it raises when [attrs.text] is a primitive.  (The object is
    shared with the input cell; the result of one call does not depend on
    that.) *)
Definition normalizeAttrs (cell : CellV2) : Outcome JsObject :=
  let attrs := default [] (cell_attrs cell) in
  let name := getV2CellName cell in
  if truthy name then
    let textObj :=
      match assoc "text" attrs with
      | Some JsNull | None => JsObj []
      | Some v => v
      end in
    let attrs := setProp "text" textObj attrs in
    match asString (getProp "text" textObj) with
    | Some _ => Returned attrs
    | None =>
        match putProp "text" (JsStr name) textObj with
        | Returned textObj' => Returned (setProp "text" textObj' attrs)
        | Raised e => Raised e
        end
    end
  else Returned attrs.

(** The text of one label, or [None] when the loop skips it. *)
Definition mapEdgeLabel (l : EdgeLabelV2) : option JointLabel :=
  match label_attrs l with
  | None => None
  | Some attrs =>
      let labelText := asString (optProp "text" (assoc "labelText" attrs)) in
      let fallback := asString (optProp "text" (assoc "label" attrs)) in
      let text :=
        if nonBlank labelText then default "" labelText
        else default "" fallback in
      if negb (truthy text) || negb (truthy (trim text)) then None
      else
        Some {| position := default (1 # 2)%Q (label_distance l);
                text := text |}
  end.

Definition mapEdgeLabels (cell : CellV2) : list JointLabel :=
  omap mapEdgeLabel (default [] (cell_labels cell)).

(** The domain properties that the node literal and the edge literal both
    add to [...base]. *)
Definition withDomain (cell : CellV2) (base : JointCellBase)
  : JointCellBase :=
  let data := cell_data cell in
  {| id := id base;
     type := type base;
     z := z base;
     attrs := attrs base;
     description := Some (default "" (data ≫= data_description));
     hasOpenThreats := Some (toBool (data ≫= data_hasOpenThreats));
     outOfScope := Some (toBool (data ≫= data_outOfScope));
     reasonOutOfScope := Some (default "" (data ≫= data_reasonOutOfScope));
     isTrustBoundary := Some (toBool (data ≫= data_isTrustBoundary));
     threats := Some (default [] (data ≫= data_threats));
     visible := cell_visible cell |}.

Definition v2CellToJointCell (cell : CellV2) : Outcome (option JointCell) :=
  let data := cell_data cell in
  let dataType := data ≫= data_type in
  let shape := cell_shape cell in
  match normalizeAttrs cell with
  | Raised e => Raised e
  | Returned attrs =>
      let base :=
        {| id := cell_id cell;
           type := mapToJointType shape dataType;
           z := if truthyNum (cell_zIndex cell)
                then default 0%Q (cell_zIndex cell) else 0%Q;
           attrs := attrs;
           description := None;
           hasOpenThreats := None;
           outOfScope := None;
           reasonOutOfScope := None;
           isTrustBoundary := None;
           threats := None;
           visible := None |} in
      match cell_position cell, cell_size cell with
      | Some p, Some s =>
          Returned (Some (NodeCell
            {| node_base := withDomain cell base;
               node_position := {| x := x p; y := y p |};
               node_size := {| width := width s; height := height s |} |}))
      | _, _ =>
          if bool_decide (is_Some (cell_source cell))
             || bool_decide (is_Some (cell_target cell)) then
            let labels := mapEdgeLabels cell in
            let isFlow := bool_decide (dataType = Some "tm.Flow") in
            let flowFlag (f : CellDataV2 -> option bool) :=
              if isFlow then Some (toBool (data ≫= f)) else None in
            Returned (Some (EdgeCell
              {| edge_base := withDomain cell base;
                 source := mapEdgeEnd (cell_source cell);
                 target := mapEdgeEnd (cell_target cell);
                 vertices :=
                   (fun v => {| x := x v; y := y v |})
                     <$> default [] (cell_vertices cell);
                 smooth :=
                   (fun c => String.eqb c "smooth") <$> cell_connector cell;
                 labels :=
                   match labels with [] => None | _ => Some labels end;
                 isBidirectional := flowFlag data_isBidirectional;
                 isEncrypted := flowFlag data_isEncrypted;
                 isPublicNetwork := flowFlag data_isPublicNetwork;
                 protocol :=
                   if isFlow then Some (default "" (data ≫= data_protocol))
                   else None |}))
          else Returned None
      end
  end.

(** [cells.map(f)] for an [f] that may raise: the first exception ends the
    traversal. *)
Fixpoint mapOutcome {A B} (f : A -> Outcome B) (l : list A)
  : Outcome (list B) :=
  match l with
  | [] => Returned []
  | a :: l' =>
      match f a with
      | Raised e => Raised e
      | Returned b =>
          match mapOutcome f l' with
          | Raised e => Raised e
          | Returned bs => Returned (b :: bs)
          end
      end
  end.

(** [toJointGraphJson]: the [cells] of the graph. *)
Definition toJointGraphJson (diagram : DiagramV2) : Outcome (list JointCell) :=
  match mapOutcome v2CellToJointCell (default [] (cells diagram)) with
  | Raised e => Raised e
  | Returned cs => Returned (omap (fun c => c) cs)
  end.

End Model.

(** ** The server: export handlers *)

Module Endpoints.
Import Js JsString Shared ThreatDragon.

(** Modelled from the spec: the game state ([GameState], of the shared
    package) is outside the files at hand.  A gameplay threat is a partial
    threat record (title, description, mitigation, severity, type, owner,
    and the id the merge reads); [gt_extra] holds what the code only
    copies.  The identified-threats index is a sequence indexed by diagram
    position whose entries are absent or map a component id to a map from
    threat id to threat. *)
Record GameThreat : Type := {
  gt_id : option string;
  gt_title : option string;
  gt_description : option string;
  gt_mitigation : option string;
  gt_severity : option string;
  gt_type : option string;
  gt_owner : option string;
  gt_extra : JsObject
}.

Abbreviation ThreatsInGame := (list (string * GameThreat)).

Abbreviation ThreatsForDiagram := (list (string * option ThreatsInGame)).

(** [state.G], as far as the handlers read it. *)
Record GameState : Type := {
  gameMode : option string;
  modelType : string;
  identifiedThreats : list (option ThreatsForDiagram)
}.

Record PlayerMetadata : Type := { name : option string }.

(** [Server.MatchData]: the players by player index. *)
Record MatchData : Type := { players : list PlayerMetadata }.

(** A reference to a document object. *)
Abbreviation loc := positive.

(** The model the storage keeps for a match: [null], the placeholder
    [{extension}] of an image, or a document object. *)
Inductive StoredModel : Type :=
| ModelNull
| ModelImage (extension : string)
| ModelDoc (l : loc).

(** What [gameServer.db.fetch] hands to a handler. *)
Record Game : Type := {
  state : GameState;
  metadata : MatchData;
  model : StoredModel
}.

(** The store: the document objects by reference.  A document parsed from
    JSON is a tree, so a reference to a diagram or to a cell of a document
    is the reference of the document with the position of the diagram, and
    of the cell, in it. *)
Abbreviation Heap := (gmap loc ThreatDragonModelV2).

(** A computation on the store that returns or raises; the store it
    leaves is kept in both cases. *)
Definition M (A : Type) : Type := Heap -> Outcome A * Heap.

Definition ret {A} (a : A) : M A := fun h => (Returned a, h).

Definition raise {A} (e : JsError) : M A := fun h => (Raised e, h).

Definition bind {A B} (m : M A) (k : A -> M B) : M B :=
  fun h =>
    match m h with
    | (Returned a, h') => k a h'
    | (Raised e, h') => (Raised e, h')
    end.

#[global] Instance M_ret : MRet M := @ret.
#[global] Instance M_bind : MBind M := fun A B k m => bind m k.
#[global] Instance M_fmap : FMap M :=
  fun A B f m => bind m (fun a => ret (f a)).

(** [l.forEach((a, i) => f(a, i))], counting from [i]. *)
Fixpoint forEach {A} (f : A -> nat -> M unit) (i : nat) (l : list A)
  : M unit :=
  match l with
  | [] => ret tt
  | a :: l' => _ ← f a i; forEach f (S i) l'
  end.

(** *** Reads and writes through references *)

(** The document a reference points to.  A reference taken from the store
    always points to one. *)
Definition deref (l : loc) : M ThreatDragonModelV2 :=
  fun h =>
    match h !! l with
    | Some doc => (Returned doc, h)
    | None => (Raised (TypeError "no object at this reference"), h)
    end.

Definition setDiagrams (ds : list DiagramV2) (doc : ThreatDragonModelV2)
  : ThreatDragonModelV2 :=
  {| version := version doc;
     summary := summary doc;
     detail :=
       {| contributors := contributors (detail doc);
          diagrams := ds;
          diagramTop := diagramTop (detail doc);
          threatTop := threatTop (detail doc);
          reviewer := reviewer (detail doc) |} |}.

Definition setCells (cs : option (list CellV2)) (d : DiagramV2) : DiagramV2 :=
  {| diagram_id := diagram_id d;
     diagram_title := diagram_title d;
     diagramType := diagramType d;
     cells := cs |}.

Definition setData (data : option CellDataV2) (c : CellV2) : CellV2 :=
  {| cell_id := cell_id c;
     cell_shape := cell_shape c;
     cell_zIndex := cell_zIndex c;
     cell_attrs := cell_attrs c;
     cell_data := data;
     cell_visible := cell_visible c;
     cell_position := cell_position c;
     cell_size := cell_size c;
     cell_source := cell_source c;
     cell_target := cell_target c;
     cell_vertices := cell_vertices c;
     cell_connector := cell_connector c;
     cell_labels := cell_labels c |}.

(** [data.threats = ts; data.hasOpenThreats = b] on a data object. *)
Definition setThreatsAndFlag (ts : option (list ThreatV2)) (b : option bool)
    (d : CellDataV2) : CellDataV2 :=
  {| data_type := data_type d;
     data_name := data_name d;
     data_description := data_description d;
     data_outOfScope := data_outOfScope d;
     data_reasonOutOfScope := data_reasonOutOfScope d;
     data_hasOpenThreats := b;
     data_isTrustBoundary := data_isTrustBoundary d;
     data_threats := ts;
     data_isBidirectional := data_isBidirectional d;
     data_isEncrypted := data_isEncrypted d;
     data_isPublicNetwork := data_isPublicNetwork d;
     data_protocol := data_protocol d |}.

Definition setThreats (ts : option (list ThreatV2)) (d : CellDataV2)
  : CellDataV2 :=
  setThreatsAndFlag ts (data_hasOpenThreats d) d.

Definition setHasOpenThreats (b : option bool) (d : CellDataV2)
  : CellDataV2 :=
  setThreatsAndFlag (data_threats d) b d.

(** The data object of the cell at position [cIdx] of the diagram at
    position [dIdx], changed by [f]. *)
Definition alterData (dIdx cIdx : nat) (f : CellDataV2 -> CellDataV2)
    (doc : ThreatDragonModelV2) : ThreatDragonModelV2 :=
  setDiagrams
    (alter
       (fun d =>
          setCells
            (alter (fun c => setData (f <$> cell_data c) c) cIdx <$> cells d)
            d)
       dIdx (diagrams (detail doc)))
    doc.

(** [tdModel.detail.diagrams[diagramIdx]] *)
Definition readDiagram (l : loc) (dIdx : nat) : M (option DiagramV2) :=
  doc ← deref l;
  ret (diagrams (detail doc) !! dIdx).

(** The position of the cell [cells.find((c) => c.id === componentId)]. *)
Fixpoint findCell (componentId : string) (cs : list CellV2) : option nat :=
  match cs with
  | [] => None
  | c :: cs' =>
      if String.eqb (cell_id c) componentId then Some O
      else S <$> findCell componentId cs'
  end.

(** The cell at position [cIdx] of a diagram. *)
Definition cellAt (diagram : option DiagramV2) (cIdx : nat) : option CellV2 :=
  d ← diagram; cs ← cells d; cs !! cIdx.

(** The position of the cell [diagram.cells?.find(...)] refers to. *)
Definition findCellIn (diagram : option DiagramV2) (componentId : string)
  : option nat :=
  d ← diagram; cs ← cells d; findCell componentId cs.

(** [cell.data] for a read of one of its properties: a cell without data
    raises. *)
Definition readData (l : loc) (dIdx cIdx : nat) : M CellDataV2 :=
  diagram ← readDiagram l dIdx;
  match cellAt diagram cIdx ≫= cell_data with
  | Some data => ret data
  | None =>
      raise (TypeError "Cannot read properties of undefined")
  end.

(** An assignment to a property of [cell.data]. *)
Definition writeData (l : loc) (dIdx cIdx : nat)
    (f : CellDataV2 -> CellDataV2) : M unit :=
  _ ← readData l dIdx cIdx;
  (fun h => (Returned tt, alter (alterData dIdx cIdx f) l h)) : M unit.

(** *** The handlers *)

(** What a handler answers: [ctx.throw(message, status)], or an attachment
    whose body is the document object itself, or one whose body is a
    text. *)
Inductive Response : Type :=
| Throw (message : string) (status : Z)
| ModelAttachment (filename : string) (body : loc)
| TextAttachment (filename : string) (body : string).

Definition newline : string := String "010" "".

(** [/(\r|\n)+/] *)
Definition isLineBreak (c : ascii) : bool :=
  Ascii.eqb c "013" || Ascii.eqb c "010".

Definition isJsonModel (G : GameState) : bool :=
  String.eqb (modelType G) ModelType_PRIVACY_ENHANCED
  || String.eqb (modelType G) ModelType_THREAT_DRAGON.

(** [owner !== undefined ? metadata.players[Number.parseInt(owner)]?.name
    : undefined], as both handlers write it. *)
Definition resolveOwner (metadata : MatchData) (owner : option string)
  : option string :=
  match owner with
  | Some o => index (players metadata) (parseInt o) ≫= name
  | None => None
  end.

Definition isOpen (t : ThreatV2) : bool :=
  bool_decide (threat_status t = Some "Open").

(** The threat [getThreats] pushes for a gameplay threat: the properties
    of the record, then the resolved owner, the status and the defaults. *)
Definition flattenedThreat (metadata : MatchData) (threat : GameThreat)
  : ThreatV2 :=
  {| threat_id := gt_id threat;
     threat_owner := resolveOwner metadata (gt_owner threat);
     threat_status := Some "NA";
     threat_description := Some (default "" (gt_description threat));
     threat_mitigation := Some (default "" (gt_mitigation threat));
     threat_severity := Some (default "Low" (gt_severity threat));
     threat_title := Some (default "" (gt_title threat));
     threat_type := Some (default "" (gt_type threat));
     threat_modelType := None;
     threat_game := None;
     threat_category := None;
     threat_extra := gt_extra threat |}.

(** [getThreats]: the gameplay threats in the order of the index, then the
    threats of the cells of the document, if there is one. *)
Definition getThreats (gameState : GameState) (metadata : MatchData)
    (model : option ThreatDragonModelV2) : list ThreatV2 :=
  let fromGame :=
    slot ← identifiedThreats gameState;
    match slot with
    | None => []
    | Some identifiedThreats =>
        componentId ← keys identifiedThreats;
        match assoc componentId identifiedThreats with
        | Some (Some threatsInGame) =>
            flattenedThreat metadata <$> values threatsInGame
        | _ => []
        end
    end in
  let fromModel :=
    match model with
    | Some model =>
        diagram ← diagrams (detail model);
        cell ← default [] (cells diagram);
        default [] (cell_data cell ≫= data_threats)
    | None => []
    end in
  (fromGame ++ fromModel)%list.

(** The array [lines] of [formatSingleThreat]. *)
Definition threatLines (threat : ThreatV2) (index : nat) : list string :=
  ([ pretty (index + 1)%nat +:+ ". **"
      +:+ escapeMarkdownText
            (default "No title given" (trim <$> threat_title threat))
      +:+ "**" ]
   ++ match threat_category threat with
      | Some category =>
          ["    - *Category:* " +:+ escapeMarkdownText category]
      | None => []
      end
   ++ match threat_severity threat with
      | Some severity =>
          ["    - *Severity:* " +:+ escapeMarkdownText severity]
      | None => []
      end
   ++ match threat_owner threat with
      | Some owner => ["    - *Author:* " +:+ escapeMarkdownText owner]
      | None => []
      end
   ++ match threat_description threat with
      | Some description =>
          ["    - *Description:* "
             +:+ escapeMarkdownText
                   (replaceRuns isLineBreak " " false description)]
      | None => []
      end
   ++ match threat_mitigation threat with
      | Some mitigation =>
          if String.eqb mitigation "No mitigation provided." then []
          else
            ["    - *Mitigation:* "
               +:+ escapeMarkdownText
                     (replaceRuns isLineBreak " " false mitigation)]
      | None => []
      end)%list.

Definition formatSingleThreat (threat : ThreatV2) (index : nat) : string :=
  String.concat newline (threatLines threat index).

Definition formatThreats (threats : list ThreatV2) (date : string) : string :=
  "Threats " +:+ date +:+ newline
    +:+ "=======" +:+ newline
    +:+ newline
    +:+ String.concat newline
          (imap (fun index threat => formatSingleThreat threat index) threats)
    +:+ newline.

(** The [modelTitle] of [downloadThreatsMarkdownFile]; [doc] is the stored
    model when the game has a JSON model type and the stored model is an
    object without the key [extension]. *)
Definition markdownModelTitle (doc : option ThreatDragonModelV2)
    (gameMode : option string) : string :=
  match doc with
  | Some doc => replaceAll " " "-" (trim (title (summary doc)))
  | None =>
      match gameMode with
      | Some mode =>
          if truthy mode then replaceAll " " "" (trim mode) else ""
      | None => ""
      end
  end.

(** The [filename] of [downloadThreatsMarkdownFile]; [now] is the ISO
    timestamp of the clock. *)
Definition markdownFilename (doc : option ThreatDragonModelV2)
    (gameMode : option string) (now : string) : string :=
  let modelTitle := markdownModelTitle doc gameMode in
  let timestamp := replaceAll ":" "-" now in
  "threats-" +:+ modelTitle +:+ "-" +:+ timestamp +:+ ".md".

Section WithCards.
Variable cards : CardDefinitions.

Definition getMethodologyName (gameMode : option string) : option string :=
  if bool_decide (gameMode = Some (GameMode_EOP cards)) then Some "STRIDE"
  else if bool_decide (gameMode = Some (GameMode_CORNUCOPIA cards))
  then Some "Cornucopia"
  else if bool_decide (gameMode = Some (GameMode_CUMULUS cards))
  then Some "Cumulus"
  else None.

(** The record the merge pushes for a gameplay threat [t]. *)
Definition mergedThreat (matchID : string) (G : GameState)
    (metadata : MatchData) (t : GameThreat) : ThreatV2 :=
  {| threat_description := Some (default "" (gt_description t));
     threat_mitigation := Some (default "" (gt_mitigation t));
     threat_modelType := getMethodologyName (gameMode G);
     threat_severity := Some (default "" (gt_severity t));
     threat_status := Some "Open";
     threat_title := Some (default "" (gt_title t));
     threat_type :=
       Some (getSuitDisplayName cards (gameMode G) (gt_type t));
     threat_owner := resolveOwner metadata (gt_owner t);
     threat_id := gt_id t;
     threat_game := Some matchID;
     threat_category := None;
     threat_extra := [] |}.

(** The body of [Object.keys(threatsForComponent).forEach]: the cell is
    looked up by id in the diagram, the threats of the component are
    pushed onto its threats, and the list and the flag are assigned. *)
Definition mergeComponent (matchID : string) (G : GameState)
    (metadata : MatchData) (l : loc) (diagramIdx : nat)
    (threatsForComponent : ThreatsForDiagram)
    (componentId : string) (_ : nat) : M unit :=
  diagram ← readDiagram l diagramIdx;
  match findCellIn diagram componentId with
  | None => ret tt
  | Some cIdx =>
      match assoc componentId threatsForComponent with
      | Some (Some threatsInGame) =>
          data ← readData l diagramIdx cIdx;
          let existing :=
            fold_left
              (fun existing t =>
                 (existing ++ [mergedThreat matchID G metadata t])%list)
              (values threatsInGame) (default [] (data_threats data)) in
          _ ← writeData l diagramIdx cIdx (setThreats (Some existing));
          data ← readData l diagramIdx cIdx;
          writeData l diagramIdx cIdx
            (setHasOpenThreats
               (if toBool (data_hasOpenThreats data)
                then data_hasOpenThreats data
                else Some (existsb isOpen existing)))
      | _ => ret tt
      end
  end.

(** The body of [state.G.identifiedThreats.forEach]. *)
Definition mergeDiagram (matchID : string) (G : GameState)
    (metadata : MatchData) (l : loc)
    (threatsForComponent : option ThreatsForDiagram) (diagramIdx : nat)
  : M unit :=
  match threatsForComponent with
  | None => ret tt
  | Some threatsForComponent =>
      diagram ← readDiagram l diagramIdx;
      match diagram with
      | None => ret tt
      | Some _ =>
          forEach
            (mergeComponent matchID G metadata l diagramIdx
               threatsForComponent)
            0 (keys threatsForComponent)
      end
  end.

(** [downloadThreatDragonModel].  [game] is what the storage returns for
    the match and [now] the ISO timestamp of the clock; the line written
    to the log is left out. *)
Definition downloadThreatDragonModel (matchID : option string)
    (game : Game) (now : string) : M Response :=
  match matchID with
  | None => ret (Throw "Missing required parameter matchID" 400)
  | Some matchID =>
      let G := state game in
      match model game, isJsonModel G with
      | ModelDoc tdModel, true =>
          _ ← forEach (mergeDiagram matchID G (metadata game) tdModel) 0
                (identifiedThreats G);
          doc ← deref tdModel;
          let modelTitle := replaceFirst " " "-" (title (summary doc)) in
          let timestamp := replaceFirst ":" "-" now in
          let filename := modelTitle +:+ "-" +:+ timestamp +:+ ".json" in
          ret (ModelAttachment filename tdModel)
      | _, _ =>
          ret (Throw
                 "Cannot download model if none is set, maybe the wrong model type has been set?"
                 400)
      end
  end.

Definition enrichThreatWithCategory (threat : ThreatV2)
    (gameMode : option string) : ThreatV2 :=
  match threat_type threat with
  | Some type =>
      if truthy type then
        {| threat_id := threat_id threat;
           threat_title := threat_title threat;
           threat_status := threat_status threat;
           threat_severity := threat_severity threat;
           threat_type := threat_type threat;
           threat_description := threat_description threat;
           threat_mitigation := threat_mitigation threat;
           threat_modelType := threat_modelType threat;
           threat_owner := threat_owner threat;
           threat_game := threat_game threat;
           threat_category :=
             Some (if isSuit cards type
                   then getSuitDisplayName cards gameMode (Some type)
                   else type);
           threat_extra := threat_extra threat |}
      else threat
  | None => threat
  end.

(** [downloadThreatsMarkdownFile].  [now] is the ISO timestamp and
    [date] the local date string of the clock. *)
Definition downloadThreatsMarkdownFile (matchID : option string)
    (game : Game) (now date : string) : M Response :=
  match matchID with
  | None => ret (Throw "Missing required parameter matchID" 400)
  | Some matchID =>
      let G := state game in
      doc ← match model game, isJsonModel G with
            | ModelDoc l, true => Some <$> deref l
            | _, _ => ret None
            end;
      let threats := getThreats G (metadata game) doc in
      let filename := markdownFilename doc (gameMode G) now in
      ret (TextAttachment filename
             (formatThreats
                ((fun threat =>
                    enrichThreatWithCategory threat (gameMode G))
                   <$> threats)
                date))
  end.

End WithCards.

End Endpoints.

(** ** The shared utilities ([packages/shared/src/utils/utils.ts]) *)

Module Utils.
Import Js JsString Shared ThreatDragon.

(** [getDealtCard], on the two properties of the game state it reads, the
    dealt cards and the player who dealt. *)
Definition getDealtCard (dealt : list string) (dealtBy : string) : string :=
if (0 <? length dealt)%nat && truthy dealtBy
then default "" (index dealt (parseInt dealtBy))
else "".

(** [resolvePlayerName]; [current] is [None] for [null]. *)
Definition resolvePlayerName (player : string) (names : list string)
    (current : option string) : string :=
if bool_decide (Some player = current) then "You"
else default "" (index names (parseInt player)).

Definition resolvePlayerNames (players : list string) (names : list string)
    (current : option string) : list string :=
(fun player => resolvePlayerName player names current) <$> players.

(** [arr.join(sep)] *)
Definition join (sep : string) (arr : list string) : string :=
String.concat sep arr.

(** [grammarJoin]: the result, and the array as the call leaves it, since
    [arr.pop()] removes the last element from the array of the caller.  The
    result is [None] for [undefined]. *)
Definition grammarJoin (arr : list string) : option string * list string :=
let last := last arr in
let arr := removelast arr in
if (length arr <=? 0)%nat then (last, arr)
else (Some (join ", " arr +:+ " and " +:+ default "undefined" last), arr).

(** [getPlayers], for a count that is a natural number: the loop pushes
    [i + ''] for [i] from [0] below [count]. *)
Fixpoint getPlayersFrom (i : nat) (steps : nat) : list string :=
match steps with
| O => []
| S steps' => pretty i :: getPlayersFrom (S i) steps'
end.

Definition getPlayers (count : nat) : list string := getPlayersFrom 0 count.

(** [s.slice(n)] *)
Fixpoint slice (n : nat) (s : string) : string :=
match n, s with
| S n', String _ r => slice n' r
| _, _ => s
end.

Definition getV2CellType (cell : CellV2) : string :=
default "" (cell_data cell ≫= data_type).

(** [typeof v === 'string' && v.trim()] *)
Definition nonBlank (v : option string) : bool :=
match v with
| Some s => truthy (trim s)
| None => false
end.

Definition getV2CellDisplayName (cell : CellV2) : string :=
let dataName := cell_data cell ≫= data_name in
if nonBlank dataName then default "" dataName
else
  match cell_attrs cell with
  | Some attrs =>
      let t1 := asString (optProp "text" (assoc "text" attrs)) in
      if nonBlank t1 then default "" t1
      else
        let t2 := asString (optProp "text" (assoc "label" attrs)) in
        if nonBlank t2 then default "" t2 else ""
  | None => ""
  end.

Definition getV2FlowLabel (cell : CellV2) : string :=
match default [] (cell_labels cell) with
| [] => ""
| l :: _ =>
    match label_attrs l with
    | None => ""
    | Some attrs =>
        let labelText := asString (optProp "text" (assoc "labelText" attrs)) in
        if nonBlank labelText then default "" labelText
        else
          let label := asString (optProp "text" (assoc "label" attrs)) in
          if nonBlank label then default "" label else ""
    end
end.

(** [getComponentName]; [component] is [None] for [undefined]. *)
Definition getComponentName (component : option CellV2) : string :=
match component with
| None => ""
| Some component =>
    let type := getV2CellType component in
    let prefix := if startsWith "tm." type then slice 3 type else type in
    if String.eqb type "tm.Flow" then
      let flowLabel := getV2FlowLabel component in
      let fallbackName := getV2CellDisplayName component in
      let name := if truthy flowLabel then flowLabel else fallbackName in
      if truthy name then prefix +:+ ": " +:+ name else prefix
    else
      let name := getV2CellDisplayName component in
      if truthy name then prefix +:+ ": " +:+ name else prefix
end.

(** [getCardsOfSuit]; a card and a suit are strings, and an absent suit is
    [None]. *)
Definition getCardsOfSuit (cards : list string) (suit : option string)
  : list string :=
match suit with
| Some suit =>
    if truthy suit then filter (fun e => startsWith suit e = true) cards
    else []
| None => []
end.

Definition getValidMoves (allCardsInHand : list string)
    (currentSuit : option string) (round : Z) (startingCard : string)
  : list string :=
if negb (truthy (default "" currentSuit)) && (round <=? 1)%Z
then [startingCard]
else
  let cardsOfSuit := getCardsOfSuit allCardsInHand currentSuit in
  if (0 <? length cardsOfSuit)%nat then cardsOfSuit else allCardsInHand.

(** A code unit of the class [\w]. *)
Definition isWordChar (c : ascii) : bool :=
let n := nat_of_ascii c in
((48 <=? n) && (n <=? 57))%nat || ((65 <=? n) && (n <=? 90))%nat
|| ((97 <=? n) && (n <=? 122))%nat || (n =? 95)%nat.

Fixpoint allWordChars (s : string) : bool :=
match s with
| String c r => isWordChar c && allWordChars r
| EmptyString => true
end.

(** [getImageExtension]: the leftmost match of [\.(\w+)$], tried at every
    position from the left: a dot followed, up to the end, by one or more
    code units of the class [\w]. *)
Fixpoint getImageExtension (filename : string) : option string :=
match filename with
| String c r =>
    if Ascii.eqb c "." && truthy r && allWordChars r then Some r
    else getImageExtension r
| EmptyString => None
end.

(** [isModelType]: the value is one of the values of [ModelType]. *)
Definition isModelType (value : string) : bool :=
bool_decide
  (value ∈ [ModelType_THREAT_DRAGON; ModelType_PRIVACY_ENHANCED;
            ModelType_IMAGE]).

End Utils.

(** ** The server: the image of a match *)

Module ImageEndpoint.
Import Js JsString Shared ThreatDragon Endpoints.

(** What [getImage] answers: [ctx.throw(message, status)], or the file of
    the given name sent from the images folder. *)
Inductive ImageResponse : Type :=
| ImageThrow (message : string) (status : Z)
| ImageSend (path : string).

(** [getImage]; [game] is what the storage returns for the match. *)
Definition getImage (matchID : option string) (game : Game) : ImageResponse :=
match matchID with
| None => ImageThrow "Missing required parameter matchID" 400
| Some matchID =>
    match model game with
    | ModelImage extension => ImageSend (matchID +:+ "." +:+ extension)
    | _ =>
        ImageThrow
          "Cannot request image if none is stored, maybe the wrong model type has been set?"
          400
    end
end.

End ImageEndpoint.

(** * Vocabulary of the properties *)

Import Js JsString Shared ThreatDragon.

(** The code unit [c] occurs in [s]. *)
Fixpoint occurs (c : ascii) (s : string) : bool :=
match s with
| String c' r => Ascii.eqb c' c || occurs c r
| EmptyString => false
end.

(** ** Sample values *)

Section Samples.
Import Endpoints.

(** Card definitions to run the handlers with. *)
Definition sampleCards : CardDefinitions :=
{| GameMode_EOP := "Elevation of Privilege";
   GameMode_CORNUCOPIA := "OWASP Cornucopia";
   GameMode_CUMULUS := "OWASP Cumulus";
   getSuitDisplayName := fun _ suit => default "" suit;
   isSuit := fun _ => false |}.

Definition roster : MatchData :=
{| players := [ {| name := Some "Alice" |}; {| name := Some "Bob" |} ] |}.

(** A gameplay threat that has a title and an owner, or not, and nothing
    else. *)
Definition oneThreat (title : option string) (owner : option string)
  : GameThreat :=
{| gt_id := None; gt_title := title; gt_description := None;
   gt_mitigation := None; gt_severity := None; gt_type := None;
   gt_owner := owner; gt_extra := [] |}.

(** A game in which four threats were found on one component: by the
    second player, by a player index outside the roster, by nobody, and
    with an owner that is no number. *)
Definition ownersGame : GameState :=
{| gameMode := None;
   modelType := ModelType_THREAT_DRAGON;
   identifiedThreats :=
     [Some [("component1",
             Some [("threat1", oneThreat (Some "a") (Some "1"));
                   ("threat2", oneThreat (Some "b") (Some "5"));
                   ("threat3", oneThreat (Some "c") None);
                   ("threat4", oneThreat (Some "d") (Some "abc"))])]] |}.

(** A threat that has a title, or none, and nothing else. *)
Definition titled (title : option string) : ThreatV2 :=
{| threat_id := None; threat_title := title; threat_status := None;
   threat_severity := None; threat_type := None;
   threat_description := None; threat_mitigation := None;
   threat_modelType := None; threat_owner := None; threat_game := None;
   threat_category := None; threat_extra := [] |}.

(** A document that has a title and no diagram. *)
Definition titledDoc (t : string) : ThreatDragonModelV2 :=
{| version := "2.5.0";
   summary := {| title := t |};
   detail := {| contributors := []; diagrams := []; diagramTop := 1;
                threatTop := 0; reviewer := "" |} |}.

(** A cell with the given attributes and name, and no geometry. *)
Definition bareCell (attrs : option JsObject) (name : option string)
  : CellV2 :=
{| cell_id := "cell"; cell_shape := "process"; cell_zIndex := Some 1%Q;
   cell_attrs := attrs;
   cell_data :=
     Some {| data_type := Some "tm.Process"; data_name := name;
             data_description := None; data_outOfScope := None;
             data_reasonOutOfScope := None;
             data_hasOpenThreats := Some false;
             data_isTrustBoundary := None; data_threats := None;
             data_isBidirectional := None; data_isEncrypted := None;
             data_isPublicNetwork := None; data_protocol := None |};
   cell_visible := None; cell_position := None; cell_size := None;
   cell_source := None; cell_target := None; cell_vertices := None;
   cell_connector := None; cell_labels := None |}.

(** The data of the cell of [DEFAULT_MODEL], with the given threats and
    flag. *)
Definition applicationData (ts : list ThreatV2) (flag : bool) : CellDataV2 :=
{| data_type := Some "tm.Actor"; data_name := Some "Application";
   data_description := Some ""; data_outOfScope := Some false;
   data_reasonOutOfScope := Some ""; data_hasOpenThreats := Some flag;
   data_isTrustBoundary := None; data_threats := Some ts;
   data_isBidirectional := None; data_isEncrypted := None;
   data_isPublicNetwork := None; data_protocol := None |}.

(** The cell of [DEFAULT_MODEL], with the given attributes, data and
    source. *)
Definition applicationCell (attrs : JsObject) (data : CellDataV2)
    (src : option EdgeEndV2) : CellV2 :=
{| cell_id := "90cdcc2d-21ab-443d-ae95-f97a798429e7";
   cell_shape := "actor"; cell_zIndex := Some 1%Q;
   cell_attrs := Some attrs;
   cell_data := Some data;
   cell_visible := Some true;
   cell_position := Some {| x := 50; y := 50 |};
   cell_size := Some {| width := 160; height := 80 |};
   cell_source := src; cell_target := None; cell_vertices := None;
   cell_connector := None; cell_labels := None |}.

(** The attributes of the cell of [DEFAULT_MODEL]. *)
Definition applicationAttrs : JsObject :=
[("text", JsObj [("text", JsStr "Application")]);
 ("body", JsObj [("stroke", JsStr "#333333");
                 ("strokeWidth", JsNum (3 # 2));
                 ("strokeDasharray", JsNull)])].

(** [DEFAULT_MODEL], with the given threats and flag in its cell. *)
Definition defaultModel (ts : list ThreatV2) (flag : bool)
  : ThreatDragonModelV2 :=
{| version := "2.5.0";
   summary := {| title := "Threat Modelling" |};
   detail :=
     {| contributors := [];
        diagrams :=
          [ {| diagram_id := 0; diagram_title := "Threat Modelling";
               diagramType := "STRIDE";
               cells :=
                 Some [applicationCell applicationAttrs
                         (applicationData ts flag) None] |} ];
        diagramTop := 1; threatTop := 0; reviewer := "" |} |}.

(** The cell of [DEFAULT_MODEL] with a label that is a plain string instead
    of the object [{text}]. *)
Definition stringLabelCell (src : option EdgeEndV2) : CellV2 :=
applicationCell [("text", JsStr "Application")] (applicationData [] false) src.

(** A match on the default model in which the second player has found one
    threat on the cell. *)
Definition sampleGame : Game :=
{| state :=
     {| gameMode := Some "Elevation of Privilege";
        modelType := ModelType_PRIVACY_ENHANCED;
        identifiedThreats :=
          [Some [("90cdcc2d-21ab-443d-ae95-f97a798429e7",
                  Some [("threat1",
                         {| gt_id := Some "threat1";
                            gt_title := Some "Spoofed login";
                            gt_description := None; gt_mitigation := None;
                            gt_severity := Some "High";
                            gt_type := Some "A"; gt_owner := Some "1";
                            gt_extra := [] |})])]] |};
   metadata := roster;
   model := ModelDoc 1%positive |}.

(** A match whose model is an image. *)
Definition imageGame : Game :=
{| state := {| gameMode := Some "Elevation of Privilege";
               modelType := ModelType_IMAGE;
               identifiedThreats := [] |};
   metadata := roster;
   model := ModelImage "png" |}.

(** The record the merge constructs for the threat of the sample match. *)
Definition spoofedLogin : ThreatV2 :=
{| threat_id := Some "threat1"; threat_title := Some "Spoofed login";
   threat_status := Some "Open"; threat_severity := Some "High";
   threat_type := Some "A"; threat_description := Some "";
   threat_mitigation := Some ""; threat_modelType := Some "STRIDE";
   threat_owner := Some "Bob"; threat_game := Some "match";
   threat_category := None; threat_extra := [] |}.

(** A threat that a document holds before the match. *)
Definition oldThreat : ThreatV2 :=
{| threat_id := Some "t0"; threat_title := Some "Old finding";
   threat_status := Some "Mitigated"; threat_severity := Some "Low";
   threat_type := Some "Tampering"; threat_description := Some "";
   threat_mitigation := Some ""; threat_modelType := Some "STRIDE";
   threat_owner := None; threat_game := None;
   threat_category := None; threat_extra := [] |}.

Definition sampleNow : string := "2026-01-01T10:20:30.000Z".

End Samples.

(** ** The Markdown report *)

Section ReportVocabulary.
Import Endpoints.

(** The file name of the report as the specification words it: the title
    with the spaces removed, else the name of the game mode with the white
    space removed, else nothing. *)
Definition claimedMarkdownFilename (doc : option ThreatDragonModelV2)
    (gameMode : option string) (now : string) : string :=
let slug :=
  match doc with
  | Some doc => replaceAll " " "" (title (summary doc))
  | None =>
      match gameMode with
      | Some mode => replaceClass isWhiteSpace (fun _ => "") mode
      | None => ""
      end
  end in
"threats-" +:+ slug +:+ "-" +:+ replaceAll ":" "-" now +:+ ".md".

(** The document of a match that has a JSON model type and a stored
    document. *)
Definition structuredDocument (game : Game) (h : Heap)
  : option ThreatDragonModelV2 :=
match model game, isJsonModel (state game) with
| ModelDoc l, true => h !! l
| _, _ => None
end.

End ReportVocabulary.

(** ** The adapter *)

Section AdapterVocabulary.
Import Model.

(** [attrs.text] is absent, [null], an object or an array: a value a
    property can be read from and written to. *)
Definition textIsNoPrimitive (attrs : JsObject) : Prop :=
match assoc "text" attrs with
| Some (JsBool _) | Some (JsNum _) | Some (JsStr _) => False
| _ => True
end.

(** Attribute normalization as the specification words it: the name is
    written into [attrs.text.text] unless that slot holds a non-empty
    string. *)
Definition claimedNormalizeAttrs (cell : CellV2) : Outcome JsObject :=
let attrs := default [] (cell_attrs cell) in
let name := getV2CellName cell in
match asString (optProp "text" (assoc "text" attrs)) with
| Some (String _ _) => Returned attrs
| _ =>
    let textObj :=
      match assoc "text" attrs with
      | Some JsNull | None => JsObj []
      | Some v => v
      end in
    match putProp "text" (JsStr name) textObj with
    | Returned textObj' => Returned (setProp "text" textObj' attrs)
    | Raised e => Raised e
    end
end.

(** The [id] of a record of the graph. *)
Definition jointId (c : JointCell) : string :=
match c with
| NodeCell n => id (node_base n)
| EdgeCell e => id (edge_base e)
end.

(** The end points, vertices and labels a record of the graph carries. *)
Definition jointSource (c : JointCell) : option JointEdgeEnd :=
match c with NodeCell _ => None | EdgeCell e => Some (source e) end.

Definition jointTarget (c : JointCell) : option JointEdgeEnd :=
match c with NodeCell _ => None | EdgeCell e => Some (target e) end.

Definition jointVertices (c : JointCell) : option (list PointV2) :=
match c with NodeCell _ => None | EdgeCell e => Some (vertices e) end.

Definition jointLabels (c : JointCell) : option (list JointLabel) :=
match c with NodeCell _ => None | EdgeCell e => labels e end.

(** The cell has the geometry of a node, or an end point of an edge. *)
Definition classifiable (cell : CellV2) : bool :=
(bool_decide (is_Some (cell_position cell))
 && bool_decide (is_Some (cell_size cell)))
|| bool_decide (is_Some (cell_source cell))
|| bool_decide (is_Some (cell_target cell)).

End AdapterVocabulary.

(** ** The merge *)

Section MergeVocabulary.
Import Endpoints.

(** [d'] is [d] but for the threats, which have grown at the end by records
    that satisfy [appended], and the flag, which has not been cleared. *)
Definition data_le (appended : ThreatV2 -> Prop) (d d' : CellDataV2) : Prop :=
d' = setThreatsAndFlag (data_threats d') (data_hasOpenThreats d') d
/\ (data_hasOpenThreats d = Some true -> data_hasOpenThreats d' = Some true)
/\ exists extra,
     default [] (data_threats d')
     = (default [] (data_threats d) ++ extra)%list
     /\ Forall appended extra.

Definition cell_le (appended : ThreatV2 -> Prop) (c c' : CellV2) : Prop :=
c' = setData (cell_data c') c
/\ option_Forall2 (data_le appended) (cell_data c) (cell_data c').

Definition diagram_le (appended : ThreatV2 -> Prop) (d d' : DiagramV2)
  : Prop :=
d' = setCells (cells d') d
/\ option_Forall2 (Forall2 (cell_le appended)) (cells d) (cells d').

Definition doc_le (appended : ThreatV2 -> Prop)
    (doc doc' : ThreatDragonModelV2) : Prop :=
doc' = setDiagrams (diagrams (detail doc')) doc
/\ Forall2 (diagram_le appended)
     (diagrams (detail doc)) (diagrams (detail doc')).

(** The store [h'] is [h] but for the document at [l], which has grown. *)
Definition heap_le (appended : ThreatV2 -> Prop) (l : loc) (h h' : Heap)
  : Prop :=
(forall l', l' <> l -> h' !! l' = h !! l')
/\ option_Forall2 (doc_le appended) (h !! l) (h' !! l).

(** The data of the cell at position [cIdx] of the diagram at position
    [dIdx]. *)
Definition dataAt (doc : ThreatDragonModelV2) (dIdx cIdx : nat)
  : option CellDataV2 :=
cellAt (diagrams (detail doc) !! dIdx) cIdx ≫= cell_data.

(** Every cell of the document has data, as the type [CellV2] asks. *)
Definition wellTyped (doc : ThreatDragonModelV2) : Prop :=
forall dIdx cIdx,
  is_Some (cellAt (diagrams (detail doc) !! dIdx) cIdx) ->
  is_Some (dataAt doc dIdx cIdx).

(** The document at [l] exists and is well typed. *)
Definition typedAt (l : loc) (h : Heap) : Prop :=
exists doc, h !! l = Some doc /\ wellTyped doc.

(** The records the merge constructs: those of the gameplay threats. *)
Definition constructed (cards : CardDefinitions) (matchID : string)
    (G : GameState) (metadata : MatchData) (r : ThreatV2) : Prop :=
exists t, r = mergedThreat cards matchID G metadata t.

(** A computation that only makes the document at [l] grow by records that
    satisfy [appended], and that returns when that document is well
    typed. *)
Definition grows (appended : ThreatV2 -> Prop) (l : loc) {A} (m : M A)
  : Prop :=
forall h,
  heap_le appended l h (m h).2
  /\ (typedAt l h -> exists a, (m h).1 = Returned a).

(** The threats the merge of a component leaves in a cell, and its flag. *)
Definition mergedThreats (cards : CardDefinitions) (matchID : string)
    (G : GameState) (metadata : MatchData) (threatsInGame : ThreatsInGame)
    (data : CellDataV2) : list ThreatV2 :=
(default [] (data_threats data)
   ++ (mergedThreat cards matchID G metadata <$> values threatsInGame))%list.

Definition mergedFlag (cards : CardDefinitions) (matchID : string)
    (G : GameState) (metadata : MatchData) (threatsInGame : ThreatsInGame)
    (data : CellDataV2) : option bool :=
if toBool (data_hasOpenThreats data) then data_hasOpenThreats data
else Some (existsb isOpen (mergedThreats cards matchID G metadata
                             threatsInGame data)).

End MergeVocabulary.

(** ** Further vocabulary *)

Section FurtherVocabulary.
Import Endpoints.

(** The cell with other attributes. *)
Definition withAttrs (attrs : JsObject) (c : CellV2) : CellV2 :=
{| cell_id := cell_id c;
   cell_shape := cell_shape c;
   cell_zIndex := cell_zIndex c;
   cell_attrs := Some attrs;
   cell_data := cell_data c;
   cell_visible := cell_visible c;
   cell_position := cell_position c;
   cell_size := cell_size c;
   cell_source := cell_source c;
   cell_target := cell_target c;
   cell_vertices := cell_vertices c;
   cell_connector := cell_connector c;
   cell_labels := cell_labels c |}.

(** The threat with another mitigation, or none. *)
Definition withMitigation (mitigation : option string) (t : ThreatV2)
  : ThreatV2 :=
{| threat_id := threat_id t;
   threat_title := threat_title t;
   threat_status := threat_status t;
   threat_severity := threat_severity t;
   threat_type := threat_type t;
   threat_description := threat_description t;
   threat_mitigation := mitigation;
   threat_modelType := threat_modelType t;
   threat_owner := threat_owner t;
   threat_game := threat_game t;
   threat_category := threat_category t;
   threat_extra := threat_extra t |}.

(** The game state with an empty identified-threats index. *)
Definition withoutIdentifiedThreats (G : GameState) : GameState :=
{| gameMode := gameMode G;
   modelType := modelType G;
   identifiedThreats := [] |}.

(** The game state with the given identified-threats index. *)
Definition withIdentifiedThreats
    (index : list (option ThreatsForDiagram)) (G : GameState) : GameState :=
{| gameMode := gameMode G;
   modelType := modelType G;
   identifiedThreats := index |}.

(** The match with the given game state. *)
Definition withState (G : GameState) (game : Game) : Game :=
{| state := G; metadata := metadata game; model := model game |}.

End FurtherVocabulary.

(** * Properties *)

(** ** Association lists and strings *)

Lemma assoc_Some_keys {A} (k : string) (o : list (string * A)) (v : A) :
  assoc k o = Some v -> k ∈ keys o.
Proof.
  unfold keys. induction o as [|[k' v'] o IH]; simpl; [done|].
  destruct (String.eqb_spec k' k) as [->|Hne]; intros H.
  - apply list_elem_of_here.
  - apply list_elem_of_further. by apply IH.
Qed.

Lemma assoc_setProp_eq {A} (k : string) (v : A) (o : list (string * A)) :
  assoc k (setProp k v o) = Some v.
Proof.
  induction o as [|[k' v'] o IH]; simpl.
  - by rewrite String.eqb_refl.
  - destruct (String.eqb_spec k' k) as [->|Hne]; simpl.
    + by rewrite String.eqb_refl.
    + by apply String.eqb_neq in Hne as ->.
Qed.

Lemma assoc_setProp_ne {A} (k k' : string) (v : A) (o : list (string * A)) :
  k' <> k -> assoc k' (setProp k v o) = assoc k' o.
Proof.
  intros Hne. induction o as [|[k0 v0] o IH]; simpl.
  - apply not_eq_sym in Hne. by apply String.eqb_neq in Hne as ->.
  - destruct (String.eqb_spec k0 k) as [->|Hne0]; simpl.
    + apply not_eq_sym in Hne. by apply String.eqb_neq in Hne as ->.
    + by rewrite IH.
Qed.

Lemma setProp_same {A} (k : string) (v : A) (o : list (string * A)) :
  assoc k o = Some v -> setProp k v o = o.
Proof.
  induction o as [|[k' v'] o IH]; simpl; [done|].
  destruct (String.eqb_spec k' k) as [->|Hne]; intros H.
  - congruence.
  - by rewrite IH.
Qed.

Lemma occurs_app c s1 s2 : occurs c (s1 +:+ s2) = occurs c s1 || occurs c s2.
Proof.
  induction s1 as [|c' s1 IH]; simpl; [done|].
  by rewrite IH, orb_assoc.
Qed.

Lemma occurs_replaceAll c rep s :
  occurs c rep = false -> occurs c (replaceAll c rep s) = false.
Proof.
  intros Hrep. induction s as [|c' s IH]; simpl; [done|].
  destruct (Ascii.eqb_spec c' c) as [->|Hne].
  - by rewrite occurs_app, Hrep, IH.
  - simpl. rewrite IH. by apply Ascii.eqb_neq in Hne as ->.
Qed.

Example trim_examples :
  trim "  a b  " = "a b" /\ trim "   " = "" /\ trim "" = "".
Proof. repeat split; reflexivity. Qed.

Example parseInt_examples :
  parseInt "1" = Some 1%Z /\ parseInt " 12px" = Some 12%Z
  /\ parseInt "abc" = None /\ parseInt "-0x1f" = Some (-31)%Z
  /\ parseInt "" = None /\ parseInt "0x" = None.
Proof. repeat split; reflexivity. Qed.

Example escapeMarkdownText_examples :
  escapeMarkdownText "a [b] (c) <d>" = "a \[b\] \(c\) &lt;d&gt;"
  /\ escapeMarkdownText "*bold* _x_" = "*bold* _x_".
Proof. split; reflexivity. Qed.

(** ** Decimal numerals and [Number.parseInt] *)

Lemma digitValue_pretty_N_char d :
  (d < 10)%N -> digitValue 10 (pretty_N_char d) = Some (Z.of_N d).
Proof.
  intros Hd.
  assert (d = 0 \/ d = 1 \/ d = 2 \/ d = 3 \/ d = 4 \/ d = 5 \/ d = 6
          \/ d = 7 \/ d = 8 \/ d = 9)%N as Hcases by lia.
  by repeat (destruct Hcases as [->|Hcases]; [done|]); subst.
Qed.

(** The digits of a positive number are read back as the number. *)
Lemma digitsPrefix_pretty_N_go x s :
  (0 < x)%N ->
  digitsPrefix 10 None (pretty_N_go x s) = digitsPrefix 10 (Some (Z.of_N x)) s.
Proof.
  revert s. induction (N.lt_wf_0 x) as [x _ IH]; intros s Hx.
  rewrite pretty_N_go_step by done.
  assert (Hmod : (x `mod` 10 < 10)%N) by by apply N.mod_lt.
  destruct (decide (x `div` 10 = 0)%N) as [Hdiv|Hdiv].
  - rewrite Hdiv, pretty_N_go_0. cbn [digitsPrefix].
    rewrite digitValue_pretty_N_char by done. f_equal. f_equal.
    pose proof (N.div_mod x 10). lia.
  - assert (Hlt : (x `div` 10 < x)%N) by (apply N.div_lt; lia).
    assert (Hpos : (0 < x `div` 10)%N) by by apply N.neq_0_lt_0.
    rewrite (IH _ Hlt _ Hpos). cbn [digitsPrefix].
    rewrite digitValue_pretty_N_char by done. f_equal. f_equal.
    pose proof (N.div_mod x 10). lia.
Qed.

(** The digits of a positive number start with a digit that is not zero. *)
Lemma pretty_N_go_head x s :
  (0 < x)%N ->
  exists d r, (1 <= d < 10)%N /\ pretty_N_go x s = String (pretty_N_char d) r.
Proof.
  revert s. induction (N.lt_wf_0 x) as [x _ IH]; intros s Hx.
  rewrite pretty_N_go_step by done.
  destruct (decide (x `div` 10 = 0)%N) as [Hdiv|Hdiv].
  - rewrite Hdiv, pretty_N_go_0. exists (x `mod` 10)%N, s. split; [|done].
    pose proof (N.div_mod x 10). pose proof (N.mod_lt x 10). lia.
  - assert (Hlt : (x `div` 10 < x)%N) by (apply N.div_lt; lia).
    assert (Hpos : (0 < x `div` 10)%N) by by apply N.neq_0_lt_0.
    apply (IH _ Hlt _ Hpos).
Qed.

(** [Number.parseInt(i + '')] is [i]. *)
Lemma parseInt_pretty (i : nat) : parseInt (pretty i) = Some (Z.of_nat i).
Proof.
  unfold pretty, pretty_nat, pretty, pretty_N.
  destruct (decide (N.of_nat i = 0%N)) as [Hzero|Hpos].
  - assert (i = 0%nat) as -> by lia. done.
  - assert (Hx : (0 < N.of_nat i)%N) by lia.
    destruct (pretty_N_go_head (N.of_nat i) "" Hx) as (d & r & Hd & Hhead).
    pose proof (digitsPrefix_pretty_N_go (N.of_nat i) "" Hx) as Hdigits.
    rewrite Hhead in Hdigits |- *.
    assert (Hparse : parseInt (String (pretty_N_char d) r)
                     = match digitsPrefix 10 None (String (pretty_N_char d) r)
                       with
                       | Some n => Some (1 * n)%Z
                       | None => None
                       end).
    { assert (d = 1 \/ d = 2 \/ d = 3 \/ d = 4 \/ d = 5 \/ d = 6
              \/ d = 7 \/ d = 8 \/ d = 9)%N as Hcases by lia.
      by repeat (destruct Hcases as [->|Hcases]; [done|]); subst. }
    rewrite Hparse, Hdigits. cbn [digitsPrefix]. f_equal. lia.
Qed.

Lemma index_parseInt_pretty {A} (l : list A) (i : nat) :
  index l (parseInt (pretty i)) = l !! i.
Proof.
  rewrite parseInt_pretty. unfold index.
  destruct (Z.ltb_spec (Z.of_nat i) 0); [lia|]. by rewrite Nat2Z.id.
Qed.

(** ** Flattening of gameplay threats ([getThreats]) *)

Section Flattening.
Import Endpoints.

(** A gameplay threat of a component of a diagram slot is flattened into
    the list [getThreats] returns. *)
Lemma getThreats_game_threat gameState metadata model i slot componentId
    threatsInGame threatId threat :
  identifiedThreats gameState !! i = Some (Some slot) ->
  assoc componentId slot = Some (Some threatsInGame) ->
  (threatId, threat) ∈ threatsInGame ->
  flattenedThreat metadata threat ∈ getThreats gameState metadata model.
Proof.
  intros Hslot Hcomp Hin. unfold getThreats.
  apply elem_of_app. left.
  apply list_elem_of_bind. exists (Some slot). split.
  - cbn beta iota. apply list_elem_of_bind. exists componentId. split.
    + cbn beta. rewrite Hcomp. apply list_elem_of_fmap. exists threat.
      split; [done|].
      unfold values. apply list_elem_of_fmap. by exists (threatId, threat).
    + by eapply assoc_Some_keys.
  - by eapply list_elem_of_lookup_2.
Qed.

(** C2. Every gameplay threat of the identified-threats index is flattened
    by [getThreats] into a threat whose status is ["NA"] and whose absent
    description, mitigation, title and type are the empty string and whose
    absent severity is ["Low"]; the record with the title ["T"] and nothing
    else flattens to title ["T"], empty description, mitigation and type,
    severity ["Low"], status ["NA"] and no owner. *)
Theorem flatten_default_substitution gameState metadata model i slot
    componentId threatsInGame threatId threat :
  identifiedThreats gameState !! i = Some (Some slot) ->
  assoc componentId slot = Some (Some threatsInGame) ->
  (threatId, threat) ∈ threatsInGame ->
  (exists flat,
      flat ∈ getThreats gameState metadata model
      /\ threat_status flat = Some "NA"
      /\ threat_description flat = Some (default "" (gt_description threat))
      /\ threat_mitigation flat = Some (default "" (gt_mitigation threat))
      /\ threat_severity flat = Some (default "Low" (gt_severity threat))
      /\ threat_title flat = Some (default "" (gt_title threat))
      /\ threat_type flat = Some (default "" (gt_type threat)))
  /\ getThreats
       {| gameMode := gameMode gameState;
          modelType := modelType gameState;
          identifiedThreats :=
            [Some [(componentId,
                    Some [(threatId, oneThreat (Some "T") None)])]] |}
       metadata None
     = [ {| threat_id := None; threat_title := Some "T";
            threat_status := Some "NA"; threat_severity := Some "Low";
            threat_type := Some ""; threat_description := Some "";
            threat_mitigation := Some ""; threat_modelType := None;
            threat_owner := None; threat_game := None;
            threat_category := None; threat_extra := [] |} ].
Proof.
  intros Hslot Hcomp Hin. split.
  - exists (flattenedThreat metadata threat).
    split; [by eapply getThreats_game_threat|done].
  - unfold getThreats. cbn. by rewrite String.eqb_refl.
Qed.

Lemma flatten_default_substitution_witness :
  exists flat,
    flat ∈ getThreats
             {| gameMode := None; modelType := ModelType_IMAGE;
                identifiedThreats :=
                  [Some [("component1",
                          Some [("threat1", oneThreat (Some "T") None)])]] |}
             roster None
    /\ threat_status flat = Some "NA".
Proof.
  destruct (flatten_default_substitution
              {| gameMode := None; modelType := ModelType_IMAGE;
                 identifiedThreats :=
                   [Some [("component1",
                           Some [("threat1", oneThreat (Some "T") None)])]] |}
              roster None 0
              [("component1", Some [("threat1", oneThreat (Some "T") None)])]
              "component1" [("threat1", oneThreat (Some "T") None)]
              "threat1" (oneThreat (Some "T") None))
    as [[flat [Hin [Hstatus _]]] _].
  - reflexivity.
  - reflexivity.
  - apply list_elem_of_here.
  - exists flat. split; assumption.
Defined.

(** C8. The owner of a flattened threat is its player-index string looked
    up in the roster. Every gameplay threat of the index has its flat
    threat in the list [getThreats] returns, and the owner of that threat
    is: undefined when the threat has no owner; the name of the player at
    position [k] when the owner is the numeral of [k] and the roster has
    such a player; undefined when the roster has no player at [k];
    undefined when the owner does not parse; and in general the name at
    the index [Number.parseInt] reads, undefined when that is negative.
    With the roster Alice, Bob the owners ["1"], ["5"], absent and ["abc"]
    resolve to Bob, undefined, undefined and undefined. *)
Theorem owner_resolution gameState metadata model i slot componentId
    threatsInGame threatId threat :
  identifiedThreats gameState !! i = Some (Some slot) ->
  assoc componentId slot = Some (Some threatsInGame) ->
  (threatId, threat) ∈ threatsInGame ->
  (exists flat,
      flat ∈ getThreats gameState metadata model
      /\ threat_id flat = gt_id threat
      /\ threat_title flat = Some (default "" (gt_title threat))
      /\ (gt_owner threat = None -> threat_owner flat = None)
      /\ (forall (k : nat) player,
            gt_owner threat = Some (pretty k) ->
            players metadata !! k = Some player ->
            threat_owner flat = name player)
      /\ (forall k : nat,
            gt_owner threat = Some (pretty k) ->
            (length (players metadata) <= k)%nat ->
            threat_owner flat = None)
      /\ (forall owner,
            gt_owner threat = Some owner ->
            parseInt owner = None ->
            threat_owner flat = None)
      /\ (forall owner n,
            gt_owner threat = Some owner ->
            parseInt owner = Some n ->
            threat_owner flat
            = if (n <? 0)%Z then None
              else players metadata !! Z.to_nat n ≫= name))
  /\ threat_owner <$> getThreats ownersGame roster None
     = [Some "Bob"; None; None; None].
Proof.
  intros Hslot Hcomp Hin. split; [|done].
  exists (flattenedThreat metadata threat).
  split; [by eapply getThreats_game_threat|].
  split; [done|]. split; [done|].
  unfold flattenedThreat, resolveOwner; cbn [threat_owner].
  split; [by intros ->|].
  split; [|split; [|split]].
  - intros k player -> Hplayer.
    by rewrite index_parseInt_pretty, Hplayer.
  - intros k -> Hk.
    rewrite index_parseInt_pretty. by rewrite lookup_ge_None_2.
  - by intros owner -> ->.
  - intros owner n -> ->. unfold index.
    by destruct (n <? 0)%Z.
Qed.

Lemma owner_resolution_witness :
  exists flat,
    flat ∈ getThreats ownersGame roster None
    /\ threat_title flat = Some "a"
    /\ threat_owner flat = Some "Bob".
Proof.
  destruct (owner_resolution ownersGame roster None 0
              [("component1",
                Some [("threat1", oneThreat (Some "a") (Some "1"));
                      ("threat2", oneThreat (Some "b") (Some "5"));
                      ("threat3", oneThreat (Some "c") None);
                      ("threat4", oneThreat (Some "d") (Some "abc"))])]
              "component1"
              [("threat1", oneThreat (Some "a") (Some "1"));
               ("threat2", oneThreat (Some "b") (Some "5"));
               ("threat3", oneThreat (Some "c") None);
               ("threat4", oneThreat (Some "d") (Some "abc"))]
              "threat1" (oneThreat (Some "a") (Some "1")))
    as [(flat & Hin & _ & Htitle & _ & Hplayer & _) _].
  - reflexivity.
  - reflexivity.
  - apply list_elem_of_here.
  - exists flat. split; [exact Hin|]. split; [exact Htitle|].
    apply (Hplayer 1%nat {| name := Some "Bob" |}); reflexivity.
Defined.

End Flattening.

(** ** The export of the model ([downloadThreatDragonModel]): rejection *)

Section Rejection.
Import Endpoints.

(** C4. The export of the model of a match whose stored model is [null] or
    the placeholder of an image (an object with the key [extension]), or
    whose game has no JSON model type, answers with the status 400; no
    threat is merged and no document is produced: the store is left as it
    was and the answer has no body. *)
Theorem model_export_rejected cards matchID game now (h : Heap) :
  model game = ModelNull
  \/ (exists extension, model game = ModelImage extension)
  \/ isJsonModel (state game) = false ->
  exists message,
    downloadThreatDragonModel cards matchID game now h
    = (Returned (Throw message 400), h).
Proof.
  intros Hcase. unfold downloadThreatDragonModel.
  destruct matchID as [matchID|]; [|by eexists].
  destruct Hcase as [->|[[extension ->]| ->]]; try by eexists.
  destruct (model game); by eexists.
Qed.

Lemma model_export_rejected_witness :
  exists message,
    downloadThreatDragonModel sampleCards (Some "match") imageGame sampleNow ∅
    = (Returned (Throw message 400), ∅).
Proof.
  apply (model_export_rejected sampleCards (Some "match") imageGame sampleNow ∅).
  right. left. exists "png". reflexivity.
Defined.

End Rejection.

(** ** The Markdown report *)

Section Markdown.
Import Endpoints.

(** C5. The title line of a threat without a title shows the fallback text,
    but the title line of a threat whose title is empty or white space
    shows an empty title: the fallback replaces an absent title only.  A
    gameplay threat without a title reaches the report with the empty title
    [getThreats] gives it. *)
Theorem blank_title_line :
  threatLines (titled None) 0 = ["1. **No title given**"]
  /\ threatLines (titled (Some "")) 0 = ["1. ****"]
  /\ threatLines (titled (Some "   ")) 0 = ["1. ****"]
  /\ head (threatLines (flattenedThreat roster (oneThreat None None)) 0)
     = Some "1. ****".
Proof. repeat split; reflexivity. Qed.

(** C6, as stated, fails: the spaces of the title of the default model
    become hyphens, and a tab inside the name of a game mode stays. *)
Lemma markdown_filename_counterexample :
  markdownFilename (Some (titledDoc "Threat Modelling")) None sampleNow
  = "threats-Threat-Modelling-2026-01-01T10-20-30.000Z.md"
  /\ markdownFilename (Some (titledDoc "Threat Modelling")) None sampleNow
     <> claimedMarkdownFilename (Some (titledDoc "Threat Modelling")) None
          sampleNow
  /\ markdownFilename None (Some (String "a" (String "009" "b"))) ""
     <> claimedMarkdownFilename None (Some (String "a" (String "009" "b"))) "".
Proof. repeat split; discriminate. Qed.

(** C6, amended. The report is an attachment named
    [threats-<slug>-<timestamp>.md], where the timestamp is the ISO
    timestamp with every colon replaced by a hyphen, and the slug is the
    trimmed title of the document with every space replaced by a hyphen
    when the match has a structured JSON document, else the trimmed name of
    the game mode with every space removed, else empty; neither a colon nor
    a space is left in them. *)
Theorem markdown_filename cards matchID game now date (h : Heap) :
  (forall l, model game = ModelDoc l -> is_Some (h !! l)) ->
  let slug :=
    match structuredDocument game h with
    | Some doc => replaceAll " " "-" (trim (title (summary doc)))
    | None =>
        match gameMode (state game) with
        | Some mode => replaceAll " " "" (trim mode)
        | None => ""
        end
    end in
  let timestamp := replaceAll ":" "-" now in
  (exists body,
      downloadThreatsMarkdownFile cards (Some matchID) game now date h
      = (Returned
           (TextAttachment
              ("threats-" +:+ slug +:+ "-" +:+ timestamp +:+ ".md") body),
         h))
  /\ occurs ":" timestamp = false
  /\ occurs " " slug = false.
Proof.
  intros Hstored slug timestamp. split; [|split].
  - unfold downloadThreatsMarkdownFile.
    assert (Hslug : forall doc,
               structuredDocument game h = doc ->
               markdownFilename doc (gameMode (state game)) now
               = "threats-" +:+ slug +:+ "-" +:+ timestamp +:+ ".md").
    { intros doc <-. unfold markdownFilename, markdownModelTitle, slug.
      destruct (structuredDocument game h); [done|].
      destruct (gameMode (state game)) as [[|c mode]|]; done. }
    unfold structuredDocument in Hslug.
    destruct (model game) as [| |l] eqn:Hmodel;
      try (eexists; cbv [mbind M_bind bind ret]; by rewrite (Hslug None)).
    destruct (isJsonModel (state game));
      [|eexists; cbv [mbind M_bind bind ret]; by rewrite (Hslug None)].
    destruct (Hstored l eq_refl) as [doc Hdoc].
    eexists. cbv [fmap M_fmap mbind M_bind bind deref ret]. rewrite Hdoc.
    by rewrite (Hslug (Some doc)).
  - by apply occurs_replaceAll.
  - unfold slug. destruct (structuredDocument game h).
    + by apply occurs_replaceAll.
    + destruct (gameMode (state game)); [|done].
      by apply occurs_replaceAll.
Qed.

Lemma markdown_filename_witness :
  exists body,
    downloadThreatsMarkdownFile sampleCards (Some "match") sampleGame
      sampleNow "1/1/2026" {[ 1%positive := defaultModel [] false ]}
    = (Returned
         (TextAttachment
            "threats-Threat-Modelling-2026-01-01T10-20-30.000Z.md" body),
       {[ 1%positive := defaultModel [] false ]}).
Proof.
  refine (proj1 (markdown_filename sampleCards "match" sampleGame sampleNow
                   "1/1/2026" {[ 1%positive := defaultModel [] false ]} _)).
  intros l [= <-]. eexists. reflexivity.
Defined.

End Markdown.

(** ** The adapter: attribute normalization *)

Section Attributes.
Import Model.

Lemma getProp_putProp_eq k x v v' :
  putProp k x v = Returned v' -> getProp k v' = Some x.
Proof.
  destruct v; simpl; intros [= <-]; simpl; apply assoc_setProp_eq.
Qed.

Lemma getProp_putProp_ne k k' x v v' :
  k' <> k -> putProp k x v = Returned v' -> getProp k' v' = getProp k' v.
Proof.
  intros Hne. destruct v; simpl; intros [= <-]; simpl;
    by apply assoc_setProp_ne.
Qed.

Lemma optProp_putProp k k' x v v' :
  putProp k x v = Returned v' -> optProp k' (Some v') = getProp k' v'.
Proof. destruct v; simpl; by intros [= <-]. Qed.

(** The write of the name into the object [attrs.text] refers to. *)
Lemma write_text (attrs : JsObject) name textObj textObj' :
  putProp "text" (JsStr name) textObj = Returned textObj' ->
  let attrs' := setProp "text" textObj' (setProp "text" textObj attrs) in
  (forall k, k <> "text" -> assoc k attrs' = assoc k attrs)
  /\ optProp "text" (assoc "text" attrs') = Some (JsStr name)
  /\ (forall k, k <> "text" ->
        optProp k (assoc "text" attrs') = getProp k textObj).
Proof.
  intros Hput attrs'. unfold attrs'. split; [|split].
  - intros k Hk. by rewrite !assoc_setProp_ne.
  - rewrite assoc_setProp_eq, (optProp_putProp _ _ _ _ _ Hput).
    by eapply getProp_putProp_eq.
  - intros k Hk.
    rewrite assoc_setProp_eq, (optProp_putProp _ _ _ _ _ Hput).
    by eapply getProp_putProp_ne.
Qed.

(** The precedence of the names of a cell. *)
Lemma getV2CellName_precedence cell :
  let attrs := default [] (cell_attrs cell) in
  let dataName := cell_data cell ≫= data_name in
  let t1 := asString (optProp "text" (assoc "text" attrs)) in
  let t2 := asString (optProp "text" (assoc "label" attrs)) in
  getV2CellName cell
  = if nonBlank dataName then default "" dataName
    else if nonBlank t1 then default "" t1
    else if nonBlank t2 then default "" t2
    else "".
Proof.
  unfold getV2CellName. cbn zeta.
  destruct (nonBlank (cell_data cell ≫= data_name)); [done|].
  by destruct (cell_attrs cell).
Qed.

(** Attribute normalization raises when there is a name to write and
    [attrs.text] is a primitive. *)
Lemma normalizeAttrs_raises cell :
  truthy (getV2CellName cell) = true ->
  ~ textIsNoPrimitive (default [] (cell_attrs cell)) ->
  normalizeAttrs cell = Raised (TypeError "Cannot create property 'text'").
Proof.
  unfold normalizeAttrs, textIsNoPrimitive. intros -> Hprim.
  destruct (assoc "text" (default [] (cell_attrs cell))) as [[]|];
    try done; by destruct Hprim.
Qed.

(** What attribute normalization does on every cell whose [attrs.text] is
    absent, [null], an object or an array: it returns a copy of [attrs] in
    which every property but [text] is as it was; the name is that of the
    data when it is a non-blank string, else [attrs.text.text] when
    non-blank, else [attrs.label.text] when non-blank, else empty; and the
    name is written into [attrs.text.text] exactly when the name is not
    empty and that slot is not a string: then the slot holds the name and
    the other properties of [attrs.text] are kept, otherwise the copy
    equals [attrs]. *)
Lemma normalizeAttrs_label cell :
  let attrs := default [] (cell_attrs cell) in
  let dataName := cell_data cell ≫= data_name in
  let t1 := asString (optProp "text" (assoc "text" attrs)) in
  let t2 := asString (optProp "text" (assoc "label" attrs)) in
  let name :=
    if nonBlank dataName then default "" dataName
    else if nonBlank t1 then default "" t1
    else if nonBlank t2 then default "" t2
    else "" in
  textIsNoPrimitive attrs ->
  exists attrs',
    normalizeAttrs cell = Returned attrs'
    /\ getV2CellName cell = name
    /\ (forall k, k <> "text" -> assoc k attrs' = assoc k attrs)
    /\ (if truthy name && negb (bool_decide (is_Some t1))
        then optProp "text" (assoc "text" attrs') = Some (JsStr name)
             /\ forall k, k <> "text" ->
                  optProp k (assoc "text" attrs')
                  = optProp k (assoc "text" attrs)
        else attrs' = attrs).
Proof.
  intros attrs dataName t1 t2 name Hprim.
  pose proof (getV2CellName_precedence cell) as Hname.
  cbn zeta in Hname. fold attrs dataName t1 t2 name in Hname.
  cut (exists attrs',
          normalizeAttrs cell = Returned attrs'
          /\ (forall k, k <> "text" -> assoc k attrs' = assoc k attrs)
          /\ (if truthy name && negb (bool_decide (is_Some t1))
              then optProp "text" (assoc "text" attrs') = Some (JsStr name)
                   /\ forall k, k <> "text" ->
                        optProp k (assoc "text" attrs')
                        = optProp k (assoc "text" attrs)
              else attrs' = attrs)).
  { intros (attrs' & Hrun & Hrest). by exists attrs'. }
  unfold normalizeAttrs. rewrite Hname. fold attrs.
  destruct (truthy name) eqn:Hn; [|by exists attrs].
  rewrite andb_true_l.
  assert (Hwrite : forall textObj textObj',
             putProp "text" (JsStr name) textObj = Returned textObj' ->
             (forall k, k <> "text" ->
                getProp k textObj = optProp k (assoc "text" attrs)) ->
             exists attrs',
               Returned
                 (setProp "text" textObj' (setProp "text" textObj attrs))
               = Returned attrs'
               /\ (forall k, k <> "text" -> assoc k attrs' = assoc k attrs)
               /\ optProp "text" (assoc "text" attrs') = Some (JsStr name)
               /\ (forall k, k <> "text" ->
                     optProp k (assoc "text" attrs')
                     = optProp k (assoc "text" attrs))).
  { intros textObj textObj' Hput Hold.
    destruct (write_text attrs name textObj textObj' Hput)
      as (Hcopy & Hslot & Hrest).
    eexists. split; [done|]. split; [done|].
    split; [done|]. intros k Hk. by rewrite Hrest, Hold. }
  unfold textIsNoPrimitive in Hprim. unfold t1.
  destruct (assoc "text" attrs) as [v|] eqn:Htext.
  - destruct v as [|b|q|s|items props|props]; try done.
    + (* null *)
      apply (Hwrite (JsObj []) _ eq_refl). by intros k Hk.
    + (* an array *)
      cbn [getProp optProp].
      destruct (asString (assoc "text" props)) as [slot|] eqn:Hslot.
      * exists attrs. by rewrite setProp_same.
      * apply (Hwrite (JsArr items props) _ eq_refl). by intros k Hk.
    + (* an object *)
      cbn [getProp optProp].
      destruct (asString (assoc "text" props)) as [slot|] eqn:Hslot.
      * exists attrs. by rewrite setProp_same.
      * apply (Hwrite (JsObj props) _ eq_refl). by intros k Hk.
  - apply (Hwrite (JsObj []) _ eq_refl). by intros k Hk.
Qed.

Lemma normalizeAttrs_label_witness :
  exists attrs',
    normalizeAttrs
      (bareCell (Some [("body", JsObj [("stroke", JsStr "#333333")])])
         (Some "Application"))
    = Returned attrs'
    /\ optProp "text" (assoc "text" attrs') = Some (JsStr "Application")
    /\ assoc "body" attrs' = Some (JsObj [("stroke", JsStr "#333333")]).
Proof.
  destruct (normalizeAttrs_label
              (bareCell (Some [("body", JsObj [("stroke", JsStr "#333333")])])
                 (Some "Application")))
    as (attrs' & Hrun & _ & Hcopy & Hwritten & _).
  - exact I.
  - exists attrs'. split; [exact Hrun|]. split; [exact Hwritten|].
    apply (Hcopy "body"). discriminate.
Defined.

(** C7. An empty label is not replaced. For every cell whose [attrs.text]
    is an object with the empty string in its [text] slot and whose
    resolved name is not empty, attribute normalization returns [attrs] as
    it is, the slot still the empty string; as the claim words it, the
    name is written into the slot, which is not a non-empty string. The
    name is resolved past the empty slot (a blank [attrs.text.text] is
    skipped for [attrs.label.text]) and then not written. *)
Theorem empty_label_not_replaced cell props :
  assoc "text" (default [] (cell_attrs cell)) = Some (JsObj props) ->
  assoc "text" props = Some (JsStr "") ->
  truthy (getV2CellName cell) = true ->
  normalizeAttrs cell = Returned (default [] (cell_attrs cell))
  /\ optProp "text" (assoc "text" (default [] (cell_attrs cell)))
     = Some (JsStr "")
  /\ (exists attrs',
        claimedNormalizeAttrs cell = Returned attrs'
        /\ optProp "text" (assoc "text" attrs')
           = Some (JsStr (getV2CellName cell)))
  /\ normalizeAttrs cell <> claimedNormalizeAttrs cell.
Proof.
  intros Htext Hslot Hname.
  assert (Hrun : normalizeAttrs cell
                 = Returned (default [] (cell_attrs cell))).
  { unfold normalizeAttrs. rewrite Hname, Htext.
    cbn [getProp optProp putProp]. rewrite Hslot. cbn [asString].
    by rewrite setProp_same. }
  assert (Hclaimed : exists attrs',
             claimedNormalizeAttrs cell = Returned attrs'
             /\ optProp "text" (assoc "text" attrs')
                = Some (JsStr (getV2CellName cell))).
  { unfold claimedNormalizeAttrs. cbn zeta. rewrite Htext.
    cbn [getProp optProp putProp]. rewrite Hslot. cbn [asString].
    eexists. split; [done|].
    rewrite assoc_setProp_eq. cbn [optProp getProp].
    by rewrite assoc_setProp_eq. }
  split; [done|]. split; [by rewrite Htext; cbn [optProp getProp]|].
  split; [done|].
  destruct Hclaimed as (attrs' & Hclaimed & Hwritten).
  rewrite Hrun, Hclaimed. intros [= <-].
  rewrite Htext in Hwritten. cbn [optProp getProp] in Hwritten.
  rewrite Hslot in Hwritten. injection Hwritten as Hempty.
  by rewrite <- Hempty in Hname.
Qed.

Lemma empty_label_not_replaced_witness :
  getV2CellName
    (bareCell (Some [("text", JsObj [("text", JsStr "")]);
                     ("label", JsObj [("text", JsStr "Foo")])]) None)
  = "Foo"
  /\ normalizeAttrs
       (bareCell (Some [("text", JsObj [("text", JsStr "")]);
                        ("label", JsObj [("text", JsStr "Foo")])]) None)
     = Returned [("text", JsObj [("text", JsStr "")]);
                 ("label", JsObj [("text", JsStr "Foo")])].
Proof.
  split; [reflexivity|].
  refine (proj1 (empty_label_not_replaced
                   (bareCell (Some [("text", JsObj [("text", JsStr "")]);
                                    ("label", JsObj [("text", JsStr "Foo")])])
                      None)
                   [("text", JsStr "")] _ _ _)); reflexivity.
Defined.

End Attributes.

(** ** The adapter: classification of cells *)

Section Classification.
Import Model.

(** A cell whose attributes normalize is converted without an exception: it
    gives a record of its own id when it has the geometry of a node or an
    end point, and is dropped otherwise. *)
Lemma v2CellToJointCell_returns cell attrs :
  normalizeAttrs cell = Returned attrs ->
  exists r,
    v2CellToJointCell cell = Returned r
    /\ (if classifiable cell
        then exists c, r = Some c /\ jointId c = cell_id cell
        else r = None).
Proof.
  intros Hattrs. unfold v2CellToJointCell, classifiable. rewrite Hattrs.
  destruct (cell_position cell) as [p|], (cell_size cell) as [s|];
    cbn [bool_decide andb orb]; try (by eexists; split; [done|]; eexists);
    destruct (cell_source cell), (cell_target cell);
    eexists; (split; [reflexivity|]); try done; by eexists.
Qed.

(** Node geometry wins over end points: a cell with a position and a size
    whose attributes normalize gives a node record with that position and
    that size, whatever its end points, vertices and labels. *)
Lemma node_precedence cell attrs p s :
  normalizeAttrs cell = Returned attrs ->
  cell_position cell = Some p ->
  cell_size cell = Some s ->
  exists n,
    v2CellToJointCell cell = Returned (Some (NodeCell n))
    /\ node_position n = p /\ node_size n = s
    /\ id (node_base n) = cell_id cell
    /\ jointSource (NodeCell n) = None /\ jointTarget (NodeCell n) = None
    /\ jointVertices (NodeCell n) = None /\ jointLabels (NodeCell n) = None.
Proof.
  intros Hattrs Hp Hs. unfold v2CellToJointCell.
  rewrite Hattrs, Hp, Hs. eexists. split; [reflexivity|].
  destruct p, s. done.
Qed.

(** A diagram all of whose cells have attributes that normalize is
    converted without an exception, and the records of the graph are those
    of the cells that have the geometry of a node or an end point, in
    order. *)
Lemma toJointGraphJson_returns diagram :
  Forall (fun cell => exists attrs, normalizeAttrs cell = Returned attrs)
    (default [] (cells diagram)) ->
  exists out,
    toJointGraphJson diagram = Returned out
    /\ jointId <$> out
       = cell_id <$> filter (fun c => classifiable c = true)
                       (default [] (cells diagram)).
Proof.
  unfold toJointGraphJson.
  induction 1 as [|cell cs [attrs Hattrs] _ IH]; [by exists []|].
  destruct IH as (out & Hout & Hids).
  destruct (v2CellToJointCell_returns cell attrs Hattrs) as (r & Hr & Hcl).
  cbn [mapOutcome]. rewrite Hr.
  destruct (mapOutcome v2CellToJointCell cs) as [rs|]; [|done].
  injection Hout as <-. rewrite filter_cons.
  destruct (classifiable cell).
  - destruct Hcl as (c & -> & Hid). exists (c :: omap (fun c => c) rs).
    split; [done|]. rewrite decide_True by done.
    cbn [fmap list_fmap]. by rewrite Hid, <-Hids.
  - subst r. exists (omap (fun c => c) rs). split; [done|].
    by rewrite decide_False.
Qed.

(** C9. The adapter is not total: for a diagram with a named cell whose
    [attrs.text] is a string, the write of the name into that string raises
    a [TypeError], and no graph is returned. *)
Theorem adapter_raises_on_string_label :
  toJointGraphJson
    {| diagram_id := 0; diagram_title := "Threat Modelling";
       diagramType := "STRIDE"; cells := Some [stringLabelCell None] |}
  = Raised (TypeError "Cannot create property 'text'").
Proof. reflexivity. Qed.

(** C10. For a named cell with a position, a size and a source whose
    [attrs.text] is a string, no node record is returned: attribute
    normalization raises before the cell is classified. *)
Theorem node_with_endpoint_raises_on_string_label :
  v2CellToJointCell
    (stringLabelCell
       (Some {| end_cell := Some "c2"; end_port := None;
                end_x := None; end_y := None |}))
  = Raised (TypeError "Cannot create property 'text'").
Proof. reflexivity. Qed.

End Classification.

(** ** The export of the model: the merge of the gameplay threats *)

(** *** What a merge may change in a document *)

Section Growth.
Import Endpoints.
Variable appended : ThreatV2 -> Prop.

#[global] Instance data_le_preorder : PreOrder (data_le appended).
Proof.
  split.
  - intros d. split; [by destruct d|]. split; [done|].
    exists []. by rewrite app_nil_r.
  - intros d1 d2 d3 (E12 & F12 & x12 & T12 & A12) (E23 & F23 & x23 & T23 & A23).
    split; [|split].
    + rewrite E23, E12. by destruct d1.
    + auto.
    + exists (x12 ++ x23)%list. split.
      * by rewrite T23, T12, app_assoc.
      * by apply Forall_app.
Qed.

#[global] Instance cell_le_preorder : PreOrder (cell_le appended).
Proof.
  split.
  - intros c. split; [by destruct c|]. reflexivity.
  - intros c1 c2 c3 [E12 R12] [E23 R23]. split.
    + rewrite E23, E12. by destruct c1.
    + by etrans.
Qed.

#[global] Instance diagram_le_preorder : PreOrder (diagram_le appended).
Proof.
  split.
  - intros d. split; [by destruct d|]. reflexivity.
  - intros d1 d2 d3 [E12 R12] [E23 R23]. split.
    + rewrite E23, E12. by destruct d1.
    + by etrans.
Qed.

#[global] Instance doc_le_preorder : PreOrder (doc_le appended).
Proof.
  split.
  - intros [v s []]. split; [done|]. reflexivity.
  - intros d1 d2 d3 [E12 R12] [E23 R23]. split.
    + rewrite E23, E12. by destruct d1 as [? ? []].
    + by etrans.
Qed.

#[global] Instance heap_le_preorder l : PreOrder (heap_le appended l).
Proof.
  split.
  - intros h. split; [done|]. reflexivity.
  - intros h1 h2 h3 [F12 R12] [F23 R23]. split.
    + intros l' Hl'. by rewrite F23, F12.
    + by etrans.
Qed.

(** A change of the data of one cell that makes it grow makes the document
    grow. *)
Lemma alterData_le dIdx cIdx f doc :
  (forall diagram cs cell data,
      diagrams (detail doc) !! dIdx = Some diagram ->
      cells diagram = Some cs -> cs !! cIdx = Some cell ->
      cell_data cell = Some data -> data_le appended data (f data)) ->
  doc_le appended doc (alterData dIdx cIdx f doc).
Proof.
  intros Hf. split; [done|]. cbn.
  apply Forall2_lookup. intros i.
  destruct (decide (i = dIdx)) as [->|Hi];
    [|rewrite list_lookup_alter_ne by done; reflexivity].
  rewrite list_lookup_alter_eq.
  destruct (diagrams (detail doc) !! dIdx) as [diagram|] eqn:Hd;
    constructor.
  split; [done|]. cbn.
  destruct (cells diagram) as [cs|] eqn:Hcs; constructor.
  apply Forall2_lookup. intros j.
  destruct (decide (j = cIdx)) as [->|Hj];
    [|rewrite list_lookup_alter_ne by done; reflexivity].
  rewrite list_lookup_alter_eq.
  destruct (cs !! cIdx) as [cell|] eqn:Hc; constructor.
  split; [done|]. cbn.
  destruct (cell_data cell) as [data|] eqn:Hdata; constructor.
  by eapply Hf.
Qed.

Lemma doc_le_cellAt doc doc' dIdx cIdx :
  doc_le appended doc doc' ->
  option_Forall2 (cell_le appended)
    (cellAt (diagrams (detail doc) !! dIdx) cIdx)
    (cellAt (diagrams (detail doc') !! dIdx) cIdx).
Proof.
  intros [_ Hds]. apply Forall2_lookup with (i := dIdx) in Hds.
  destruct Hds as [d d' [_ Hcs]|]; [|constructor]. cbn.
  destruct Hcs as [cs cs' Hcs|]; [|constructor]. cbn.
  by apply Forall2_lookup.
Qed.

Lemma doc_le_dataAt doc doc' dIdx cIdx :
  doc_le appended doc doc' ->
  option_Forall2 (data_le appended)
    (dataAt doc dIdx cIdx) (dataAt doc' dIdx cIdx).
Proof.
  intros Hle. unfold dataAt.
  destruct (doc_le_cellAt doc doc' dIdx cIdx Hle) as [c c' [_ Hd]|];
    [done|constructor].
Qed.

Lemma doc_le_wellTyped doc doc' :
  doc_le appended doc doc' -> wellTyped doc -> wellTyped doc'.
Proof.
  intros Hle Hty dIdx cIdx Hcell. specialize (Hty dIdx cIdx).
  pose proof (doc_le_cellAt doc doc' dIdx cIdx Hle) as Hc.
  unfold dataAt in *. destruct Hc as [c c' [_ Hd]|]; [|by destruct Hcell].
  cbn in *. destruct Hd; [done|]. by destruct Hty.
Qed.

(** A store that differs from [h] at [l] only is [h] with a new document at
    [l]. *)
Lemma heap_le_insert l (h h' : Heap) doc :
  heap_le appended l h h' -> h !! l = Some doc ->
  exists doc', h' = <[l := doc']> h /\ doc_le appended doc doc'.
Proof.
  intros [Hframe Hl] Hdoc. rewrite Hdoc in Hl.
  inversion Hl as [? doc' Hle Heq1 Heq2|]; subst. exists doc'.
  split; [|done]. apply map_eq. intros l'.
  destruct (decide (l' = l)) as [->|Hne].
  - by rewrite lookup_insert_eq.
  - by rewrite lookup_insert_ne, Hframe.
Qed.

Lemma heap_le_typedAt l h h' :
  heap_le appended l h h' -> typedAt l h -> typedAt l h'.
Proof.
  intros [_ Hl] (doc & Hdoc & Hty). rewrite Hdoc in Hl.
  inversion Hl as [? doc' Hle|]; subst. exists doc'.
  split; [done|]. by eapply doc_le_wellTyped.
Qed.

Lemma grows_ret l {A} (a : A) : grows appended l (ret a).
Proof. intros h. split; [reflexivity|]. by exists a. Qed.

Lemma grows_bind l {A B} (m : M A) (k : A -> M B) :
  grows appended l m -> (forall a, grows appended l (k a)) ->
  grows appended l (m ≫= k).
Proof.
  intros Hm Hk h. destruct (Hm h) as [Hle Hret].
  unfold mbind, M_bind, bind. destruct (m h) as [[a|e] h'] eqn:Hrun; cbn in *.
  - destruct (Hk a h') as [Hle' Hret']. split; [by etrans|].
    intros Hty. apply Hret'. by eapply heap_le_typedAt.
  - split; [done|]. intros Hty. by destruct (Hret Hty).
Qed.

Lemma grows_forEach l {A} (f : A -> nat -> M unit) i (xs : list A) :
  (forall a j, grows appended l (f a j)) -> grows appended l (forEach f i xs).
Proof.
  intros Hf. revert i. induction xs as [|a xs IH]; intros i; cbn.
  - apply grows_ret.
  - apply grows_bind; [apply Hf|]. intros _. apply IH.
Qed.

Lemma grows_readDiagram l dIdx : grows appended l (readDiagram l dIdx).
Proof.
  intros h. unfold readDiagram, deref, mbind, M_bind, bind, ret.
  destruct (h !! l) as [doc|] eqn:Hdoc; cbn.
  - split; [reflexivity|]. by eexists.
  - split; [reflexivity|]. intros (doc & Hdoc' & _). congruence.
Qed.

Lemma heap_le_write l dIdx cIdx f (h : Heap) doc data :
  h !! l = Some doc ->
  dataAt doc dIdx cIdx = Some data ->
  data_le appended data (f data) ->
  heap_le appended l h (<[l := alterData dIdx cIdx f doc]> h).
Proof.
  intros Hdoc Hdata Hle. split.
  - intros l' Hne. by rewrite lookup_insert_ne.
  - rewrite Hdoc, lookup_insert_eq. constructor.
    apply alterData_le. intros diagram cs cell data' Hd Hcs Hc Hdata'.
    unfold dataAt in Hdata. rewrite Hd in Hdata. cbn in Hdata.
    rewrite Hcs in Hdata. cbn in Hdata. rewrite Hc in Hdata. cbn in Hdata.
    congruence.
Qed.

End Growth.

(** *** Reads and writes of the data of a cell *)

Section DataAccess.
Import Endpoints.

Lemma dataAt_alterData_eq dIdx cIdx f doc :
  dataAt (alterData dIdx cIdx f doc) dIdx cIdx = f <$> dataAt doc dIdx cIdx.
Proof.
  unfold dataAt, alterData. cbn. rewrite list_lookup_alter_eq.
  destruct (diagrams (detail doc) !! dIdx) as [d|]; [|done]. cbn.
  destruct (cells d) as [cs|]; [|done]. cbn. rewrite list_lookup_alter_eq.
  by destruct (cs !! cIdx).
Qed.

Lemma alterData_alterData dIdx cIdx f g doc :
  alterData dIdx cIdx g (alterData dIdx cIdx f doc)
  = alterData dIdx cIdx (fun d => g (f d)) doc.
Proof.
  unfold alterData, setDiagrams. cbn. f_equal. f_equal.
  rewrite list_alter_alter_eq. apply list_alter_ext; [|done].
  intros d _. unfold setCells. cbn. f_equal.
  destruct (cells d) as [cs|]; [|done]. cbn. f_equal.
  rewrite list_alter_alter_eq. apply list_alter_ext; [|done].
  intros c _. unfold setData. cbn. f_equal. by destruct (cell_data c).
Qed.

Lemma run_readData l dIdx cIdx (h : Heap) :
  readData l dIdx cIdx h
  = match h !! l with
    | Some doc =>
        match dataAt doc dIdx cIdx with
        | Some data => (Returned data, h)
        | None => (Raised (TypeError "Cannot read properties of undefined"), h)
        end
    | None => (Raised (TypeError "no object at this reference"), h)
    end.
Proof.
  unfold readData, readDiagram, deref, mbind, M_bind, bind, ret, raise, dataAt.
  destruct (h !! l) as [doc|]; [|done].
  destruct (cellAt (diagrams (detail doc) !! dIdx) cIdx) as [c|]; [|done].
  cbn. by destruct (cell_data c).
Qed.

Lemma run_writeData l dIdx cIdx f (h : Heap) doc data :
  h !! l = Some doc ->
  dataAt doc dIdx cIdx = Some data ->
  writeData l dIdx cIdx f h
  = (Returned tt, <[l := alterData dIdx cIdx f doc]> h).
Proof.
  intros Hdoc Hdata. unfold writeData, mbind, M_bind, bind.
  rewrite run_readData, Hdoc, Hdata. f_equal.
  apply map_eq. intros l'. destruct (decide (l' = l)) as [->|Hne].
  - by rewrite lookup_alter_eq, lookup_insert_eq, Hdoc.
  - by rewrite lookup_alter_ne, lookup_insert_ne.
Qed.

Lemma fold_left_push {A B} (g : A -> B) (xs : list A) (init : list B) :
  fold_left (fun existing t => existing ++ [g t])%list xs init
  = (init ++ (g <$> xs))%list.
Proof.
  revert init. induction xs as [|a xs IH]; intros init; cbn.
  - by rewrite app_nil_r.
  - by rewrite IH, <-app_assoc.
Qed.

Lemma findCell_lookup componentId cs cIdx :
  findCell componentId cs = Some cIdx ->
  exists cell, cs !! cIdx = Some cell /\ cell_id cell = componentId.
Proof.
  revert cIdx. induction cs as [|c cs IH]; intros cIdx; cbn; [done|].
  destruct (String.eqb_spec (cell_id c) componentId) as [Hid|_].
  - intros [= <-]. by exists c.
  - destruct (findCell componentId cs) as [j|]; [|done].
    intros [= <-]. by apply IH.
Qed.

Lemma findCellIn_cellAt diagram componentId cIdx :
  findCellIn diagram componentId = Some cIdx ->
  exists cell,
    cellAt diagram cIdx = Some cell /\ cell_id cell = componentId.
Proof.
  unfold findCellIn, cellAt. destruct diagram as [d|]; [|done]. cbn.
  destruct (cells d) as [cs|]; [|done]. cbn. apply findCell_lookup.
Qed.

End DataAccess.

(** *** The steps of the merge *)

Section MergeSteps.
Import Endpoints.
Variable cards : CardDefinitions.
Variables (matchID : string) (G : GameState) (metadata : MatchData).
Variable l : loc.

Local Abbreviation built := (constructed cards matchID G metadata).

Lemma constructed_open r : built r -> threat_status r = Some "Open".
Proof. by intros [t ->]. Qed.

(** The merge of the threats of one component: when the diagram has a cell
    of that id and the cell has data, the threats of the component are
    appended to the threats of the cell and the flag is raised, in place. *)
Lemma run_mergeComponent dIdx threatsForComponent componentId n (h : Heap)
    doc cIdx threatsInGame data :
  h !! l = Some doc ->
  findCellIn (diagrams (detail doc) !! dIdx) componentId = Some cIdx ->
  assoc componentId threatsForComponent = Some (Some threatsInGame) ->
  dataAt doc dIdx cIdx = Some data ->
  mergeComponent cards matchID G metadata l dIdx threatsForComponent
    componentId n h
  = (Returned tt,
     <[l := alterData dIdx cIdx
              (setThreatsAndFlag
                 (Some (mergedThreats cards matchID G metadata
                          threatsInGame data))
                 (mergedFlag cards matchID G metadata threatsInGame data))
              doc]> h).
Proof.
  intros Hdoc Hfind Hassoc Hdata.
  unfold mergeComponent, mbind, M_bind, bind.
  unfold readDiagram, deref, mbind, M_bind, bind, ret. rewrite Hdoc.
  rewrite Hfind, Hassoc, run_readData, Hdoc, Hdata, fold_left_push.
  fold (mergedThreats cards matchID G metadata threatsInGame data).
  erewrite run_writeData by done.
  rewrite run_readData, lookup_insert_eq, dataAt_alterData_eq, Hdata. cbn.
  erewrite run_writeData;
    [|apply lookup_insert_eq|by rewrite dataAt_alterData_eq, Hdata].
  by rewrite insert_insert_eq, alterData_alterData.
Qed.

Lemma data_le_merged threatsInGame data :
  data_le built data
    (setThreatsAndFlag
       (Some (mergedThreats cards matchID G metadata threatsInGame data))
       (mergedFlag cards matchID G metadata threatsInGame data) data).
Proof.
  split; [done|]. split.
  - cbn. unfold mergedFlag. by intros ->.
  - exists (mergedThreat cards matchID G metadata <$> values threatsInGame).
    split; [done|]. apply Forall_fmap, Forall_forall. intros t _.
    by exists t.
Qed.

Lemma grows_mergeComponent dIdx threatsForComponent componentId n :
  grows built l
    (mergeComponent cards matchID G metadata l dIdx threatsForComponent
       componentId n).
Proof.
  intros h.
  destruct (h !! l) as [doc|] eqn:Hdoc;
    [|unfold mergeComponent, readDiagram, deref, mbind, M_bind, bind;
      rewrite Hdoc; split; [reflexivity|];
      intros (doc & Hdoc' & _); congruence].
  destruct (findCellIn (diagrams (detail doc) !! dIdx) componentId)
    as [cIdx|] eqn:Hfind;
    [|unfold mergeComponent, readDiagram, deref, mbind, M_bind, bind, ret;
      rewrite Hdoc, Hfind; split; [reflexivity|by eexists]].
  destruct (assoc componentId threatsForComponent) as [[threatsInGame|]|]
    eqn:Hassoc;
    try (unfold mergeComponent, readDiagram, deref, mbind, M_bind, bind, ret;
         rewrite Hdoc, Hfind, Hassoc; split; [reflexivity|by eexists]).
  destruct (dataAt doc dIdx cIdx) as [data|] eqn:Hdata.
  - erewrite run_mergeComponent by done. split; [|by eexists].
    eapply heap_le_write; [done..|]. apply data_le_merged.
  - unfold mergeComponent, mbind, M_bind, bind.
    unfold readDiagram, deref, mbind, M_bind, bind, ret. rewrite Hdoc.
    rewrite Hfind, Hassoc, run_readData, Hdoc, Hdata.
    split; [reflexivity|]. intros (doc' & Hdoc' & Hty).
    assert (doc' = doc) as -> by congruence.
    destruct (findCellIn_cellAt _ _ _ Hfind) as (cell & Hcell & _).
    destruct (Hty dIdx cIdx) as [data Hdata']; [by eexists|]. congruence.
Qed.

Lemma grows_mergeDiagram threatsForComponent dIdx :
  grows built l
    (mergeDiagram cards matchID G metadata l threatsForComponent dIdx).
Proof.
  unfold mergeDiagram. destruct threatsForComponent as [tfc|];
    [|apply grows_ret].
  apply grows_bind; [apply grows_readDiagram|]. intros [d|];
    [|apply grows_ret].
  apply grows_forEach. intros componentId n. apply grows_mergeComponent.
Qed.

(** The whole walk over the identified-threats index. *)
Lemma grows_merge :
  grows built l
    (forEach (mergeDiagram cards matchID G metadata l) 0
       (identifiedThreats G)).
Proof. apply grows_forEach. intros tfc dIdx. apply grows_mergeDiagram. Qed.

End MergeSteps.

(** *** The merge as a whole *)

Section Merge.
Import Endpoints.
Variable cards : CardDefinitions.

(** The handler only makes the stored document grow, whatever it answers. *)
Lemma download_grows matchID game now (h : Heap) l :
  model game = ModelDoc l ->
  heap_le (constructed cards matchID (state game) (metadata game)) l h
    (downloadThreatDragonModel cards (Some matchID) game now h).2.
Proof.
  intros Hmodel. unfold downloadThreatDragonModel. rewrite Hmodel.
  destruct (isJsonModel (state game)); [|reflexivity].
  destruct (grows_merge cards matchID (state game) (metadata game) l h)
    as [Hle _].
  unfold mbind, M_bind, bind.
  destruct (forEach _ 0 (identifiedThreats (state game)) h)
    as [[[]|e] h'] eqn:Hrun; [|done].
  unfold deref. cbn in Hle. by destruct (h' !! l).
Qed.

(** C3. The merge never clears the flag of a cell and never replaces its
    threats: for every store, match and cell of a stored document, after
    the export of the model the cell is at the same place of the same
    document, its flag is true when it was true, and its threats are the
    former threats followed by records the merge has constructed from
    gameplay threats, each of status ["Open"]; and the merge of the threats
    of one component appends, to the threats of the cell of that id, the
    records constructed from the threats of the component, in their
    order. *)
Theorem merge_keeps_flag_and_threats matchID game now (h : Heap) l doc
    dIdx cIdx data :
  h !! l = Some doc ->
  dataAt doc dIdx cIdx = Some data ->
  (exists doc' data' extra,
      (downloadThreatDragonModel cards (Some matchID) game now h).2 !! l
      = Some doc'
      /\ dataAt doc' dIdx cIdx = Some data'
      /\ (data_hasOpenThreats data = Some true ->
          data_hasOpenThreats data' = Some true)
      /\ default [] (data_threats data')
         = (default [] (data_threats data) ++ extra)%list
      /\ Forall
           (fun r =>
              threat_status r = Some "Open"
              /\ exists t,
                   r = mergedThreat cards matchID (state game)
                         (metadata game) t)
           extra)
  /\ (forall threatsForComponent componentId n threatsInGame,
        findCellIn (diagrams (detail doc) !! dIdx) componentId = Some cIdx ->
        assoc componentId threatsForComponent = Some (Some threatsInGame) ->
        exists doc' data',
          (mergeComponent cards matchID (state game) (metadata game) l dIdx
             threatsForComponent componentId n h).2 !! l = Some doc'
          /\ dataAt doc' dIdx cIdx = Some data'
          /\ data_threats data'
             = Some (default [] (data_threats data)
                       ++ (mergedThreat cards matchID (state game)
                             (metadata game) <$> values threatsInGame))%list
          /\ (data_hasOpenThreats data = Some true ->
              data_hasOpenThreats data' = Some true)).
Proof.
  intros Hdoc Hdata. split.
  - assert (Hle : option_Forall2
                    (doc_le (constructed cards matchID (state game)
                               (metadata game)))
                    (h !! l)
                    ((downloadThreatDragonModel cards (Some matchID) game
                        now h).2 !! l)).
    { destruct (model game) as [| |lm] eqn:Hmodel;
        try (unfold downloadThreatDragonModel; rewrite Hmodel; reflexivity).
      destruct (download_grows matchID game now h lm Hmodel) as [Hframe Hl].
      destruct (decide (l = lm)) as [->|Hne]; [done|].
      rewrite Hframe by done. reflexivity. }
    rewrite Hdoc in Hle. inversion Hle as [? doc' Hdoc_le|]; subst.
    pose proof (doc_le_dataAt _ _ _ dIdx cIdx Hdoc_le) as Hd.
    rewrite Hdata in Hd.
    inversion Hd as [? data' (_ & Hflag & extra & Hthreats & Hextra)|]; subst.
    exists doc', data', extra. split; [done|]. split; [done|].
    split; [done|]. split; [done|].
    eapply Forall_impl; [exact Hextra|]. intros r Hr. split; [|done].
    by eapply constructed_open.
  - intros threatsForComponent componentId n threatsInGame Hfind Hassoc.
    erewrite run_mergeComponent by done. cbn.
    eexists _, _. rewrite lookup_insert_eq. split; [done|].
    rewrite dataAt_alterData_eq, Hdata. split; [done|]. split; [done|].
    cbn. unfold mergedFlag. by intros ->.
Qed.

(** C1, amended. The merge updates the stored document in place and the
    body of the answer is that same document object: for a match with a
    JSON model type whose stored model is a well-typed document, the export
    of the model answers with an attachment whose body is the reference of
    the stored document, and leaves a store that differs at that reference
    only; there, the document is the former one but for the threats of its
    cells, which have grown by constructed records, and their flags, which
    have not been cleared. *)
Theorem merge_in_place matchID game now (h : Heap) l doc :
  model game = ModelDoc l ->
  isJsonModel (state game) = true ->
  h !! l = Some doc ->
  wellTyped doc ->
  exists filename doc',
    downloadThreatDragonModel cards (Some matchID) game now h
    = (Returned (ModelAttachment filename l), <[l := doc']> h)
    /\ doc_le (constructed cards matchID (state game) (metadata game))
         doc doc'.
Proof.
  intros Hmodel Hjson Hdoc Hty.
  unfold downloadThreatDragonModel. rewrite Hmodel, Hjson.
  destruct (grows_merge cards matchID (state game) (metadata game) l h)
    as [Hle Hret].
  destruct Hret as [[] Hret]; [by exists doc|].
  unfold mbind, M_bind, bind.
  destruct (forEach _ 0 (identifiedThreats (state game)) h)
    as [r h'] eqn:Hrun. cbn in Hle, Hret. subst r.
  destruct (heap_le_insert _ _ _ _ _ Hle Hdoc) as (doc' & -> & Hdoc_le).
  unfold deref. rewrite lookup_insert_eq. by eexists _, doc'.
Qed.

End Merge.

(** *** A match on the default model *)

Section DefaultMatch.
Import Endpoints.

Lemma defaultModel_wellTyped ts flag : wellTyped (defaultModel ts flag).
Proof.
  intros [|dIdx] [|cIdx] [c Hc]; try discriminate. by eexists.
Qed.

(** The export of the model of the sample match, with a threat already in
    the cell: the old threat stays first, the constructed record follows,
    and the flag stays. *)
Example merge_appends_to_old_threats :
  (downloadThreatDragonModel sampleCards (Some "match") sampleGame
     sampleNow {[ 1%positive := defaultModel [oldThreat] true ]}).2
    !! 1%positive
  = Some (defaultModel [oldThreat; spoofedLogin] true).
Proof. by vm_compute. Qed.

(** C1, as stated, fails: the export of the model of the sample match
    leaves, at the reference of the stored document, a document whose cell
    has one more threat and a flag turned to true; the document that was
    loaded has been changed. *)
Lemma merge_in_place_counterexample :
  (({[ 1%positive := defaultModel [] false ]} : Heap) !! 1%positive)
    ≫= (fun doc => dataAt doc 0 0)
  = Some (applicationData [] false)
  /\ ((downloadThreatDragonModel sampleCards (Some "match") sampleGame
         sampleNow {[ 1%positive := defaultModel [] false ]}).2 !! 1%positive)
       ≫= (fun doc => dataAt doc 0 0)
     = Some (applicationData [spoofedLogin] true)
  /\ (downloadThreatDragonModel sampleCards (Some "match") sampleGame
        sampleNow {[ 1%positive := defaultModel [] false ]}).2 !! 1%positive
     <> ({[ 1%positive := defaultModel [] false ]} : Heap) !! 1%positive.
Proof.
  assert (Hafter :
            (downloadThreatDragonModel sampleCards (Some "match") sampleGame
               sampleNow {[ 1%positive := defaultModel [] false ]}).2
              !! 1%positive
            = Some (defaultModel [spoofedLogin] true)) by by vm_compute.
  rewrite Hafter. split; [done|]. split; [done|]. discriminate.
Qed.

Lemma merge_in_place_witness :
  exists filename doc',
    downloadThreatDragonModel sampleCards (Some "match") sampleGame
      sampleNow {[ 1%positive := defaultModel [oldThreat] true ]}
    = (Returned (ModelAttachment filename 1%positive),
       <[ 1%positive := doc' ]>
         {[ 1%positive := defaultModel [oldThreat] true ]})
    /\ doc_le
         (constructed sampleCards "match" (state sampleGame)
            (metadata sampleGame))
         (defaultModel [oldThreat] true) doc'.
Proof.
  apply (merge_in_place sampleCards "match" sampleGame sampleNow
           {[ 1%positive := defaultModel [oldThreat] true ]} 1%positive
           (defaultModel [oldThreat] true)).
  - reflexivity.
  - reflexivity.
  - reflexivity.
  - apply defaultModel_wellTyped.
Defined.

Lemma merge_keeps_flag_and_threats_witness :
  exists doc' data' extra,
    (downloadThreatDragonModel sampleCards (Some "match") sampleGame
       sampleNow {[ 1%positive := defaultModel [oldThreat] true ]}).2
      !! 1%positive
    = Some doc'
    /\ dataAt doc' 0 0 = Some data'
    /\ (data_hasOpenThreats (applicationData [oldThreat] true) = Some true ->
        data_hasOpenThreats data' = Some true)
    /\ default [] (data_threats data')
       = (default [] (data_threats (applicationData [oldThreat] true))
            ++ extra)%list
    /\ Forall
         (fun r =>
            threat_status r = Some "Open"
            /\ exists t,
                 r = mergedThreat sampleCards "match" (state sampleGame)
                       (metadata sampleGame) t)
         extra.
Proof.
  apply (merge_keeps_flag_and_threats sampleCards "match" sampleGame
           sampleNow {[ 1%positive := defaultModel [oldThreat] true ]}
           1%positive (defaultModel [oldThreat] true) 0 0
           (applicationData [oldThreat] true)).
  - reflexivity.
  - reflexivity.
Defined.

End DefaultMatch.

(** * Further properties *)

(** ** The adapter *)

Section AdapterFacts.
Import Model.

(** X1. The type of a record of the graph is always in the [tm.] namespace,
    and is never one of the two types the adapter remaps. *)
Theorem mapToJointType_namespace shape dataType :
  startsWith "tm." (mapToJointType shape dataType) = true
  /\ mapToJointType shape dataType <> "tm.BoundaryBox"
  /\ mapToJointType shape dataType <> "tm.Text".
Proof.
  assert (Hfallback : forall r,
             r = (if String.eqb shape "process" then "tm.Process"
                  else if String.eqb shape "actor" then "tm.Actor"
                  else if String.eqb shape "store" then "tm.Store"
                  else if String.eqb shape "flow" then "tm.Flow"
                  else if String.eqb shape "trust-boundary-curve"
                  then "tm.Boundary"
                  else if String.eqb shape "trust-boundary-box"
                  then "tm.Boundary"
                  else "tm.Process") ->
             startsWith "tm." r = true
             /\ r <> "tm.BoundaryBox" /\ r <> "tm.Text").
  { intros r ->. by repeat case_match. }
  unfold mapToJointType. destruct dataType as [dt|]; [|by apply Hfallback].
  destruct (startsWith "tm." dt) eqn:Hns; [|by apply Hfallback].
  destruct (String.eqb_spec dt "tm.BoundaryBox") as [|Hbox]; [done|].
  destruct (String.eqb_spec dt "tm.Text") as [|Htext]; done.
Qed.

(** X2. Classification is idempotent: a record of the graph read as a cell
    again, with its type as data type, gets the same type, whatever its
    shape. *)
Theorem mapToJointType_idempotent shape shape' dataType :
  mapToJointType shape' (Some (mapToJointType shape dataType))
  = mapToJointType shape dataType.
Proof.
  destruct (mapToJointType_namespace shape dataType) as (Hns & Hbox & Htext).
  unfold mapToJointType at 1. rewrite Hns.
  apply String.eqb_neq in Hbox as ->. by apply String.eqb_neq in Htext as ->.
Qed.

(** X3. Attribute normalization raises exactly when the cell has a name to
    write and [attrs.text] is a primitive (a boolean, a number or a
    string); the exception is then a [TypeError]. *)
Theorem normalizeAttrs_raises_iff cell :
  (exists e, normalizeAttrs cell = Raised e)
  <-> truthy (getV2CellName cell) = true
      /\ ~ textIsNoPrimitive (default [] (cell_attrs cell)).
Proof.
  split.
  - intros [e He]. unfold normalizeAttrs, textIsNoPrimitive in *.
    destruct (truthy (getV2CellName cell)); [|done]. split; [done|].
    destruct (assoc "text" (default [] (cell_attrs cell))) as [[]|];
      cbn in He; try (intros []); by repeat case_match.
  - intros [Hname Hprim]. eexists. by apply normalizeAttrs_raises.
Qed.

Lemma attrs_withAttrs attrs cell :
  default [] (cell_attrs (withAttrs attrs cell)) = attrs.
Proof. done. Qed.

(** The name of a cell depends on its attributes through their properties
    only. *)
Lemma getV2CellName_withAttrs cell attrs :
  (forall k, assoc k attrs = assoc k (default [] (cell_attrs cell))) ->
  getV2CellName (withAttrs attrs cell) = getV2CellName cell.
Proof.
  intros Hsame. rewrite !getV2CellName_precedence. cbn zeta.
  rewrite attrs_withAttrs. cbn [cell_data withAttrs]. by rewrite !Hsame.
Qed.

(** X4. Attribute normalization is idempotent: the attributes it returns
    for a cell are returned unchanged for the cell that carries them. *)
Theorem normalizeAttrs_idempotent cell attrs' :
  normalizeAttrs cell = Returned attrs' ->
  normalizeAttrs (withAttrs attrs' cell) = Returned attrs'.
Proof.
  intros Hrun.
  pose proof (getV2CellName_precedence cell) as Hname. cbn zeta in Hname.
  unfold normalizeAttrs in Hrun.
  remember (default [] (cell_attrs cell)) as attrs eqn:Hattrs.
  remember (getV2CellName cell) as name eqn:Hnm.
  assert (Hsame : attrs' = attrs ->
            getV2CellName (withAttrs attrs' cell) = name).
  { intros ->. rewrite Hnm. apply getV2CellName_withAttrs. by rewrite Hattrs. }
  destruct (truthy name) eqn:Hn.
  - (* there is a name *)
    assert (Hkept : forall textObj,
               assoc "text" attrs = Some textObj ->
               is_Some (asString (getProp "text" textObj)) ->
               attrs' = attrs ->
               normalizeAttrs (withAttrs attrs' cell) = Returned attrs').
    { intros textObj Htext [slot Hslot] Heq.
      unfold normalizeAttrs. rewrite (Hsame Heq), Hn. subst attrs'.
      rewrite attrs_withAttrs, Htext.
      destruct textObj; try done; cbn in Hslot |- *; rewrite Hslot;
        by rewrite setProp_same. }
    assert (Hwritten : forall textObj textObj',
               putProp "text" (JsStr name) textObj = Returned textObj' ->
               asString (optProp "text" (assoc "text" attrs)) = None ->
               attrs' = setProp "text" textObj' (setProp "text" textObj attrs) ->
               normalizeAttrs (withAttrs attrs' cell) = Returned attrs').
    { intros textObj textObj' Hput Hslot ->.
      destruct (write_text attrs name textObj textObj' Hput)
        as (Hcopy & Hnew & _). cbn zeta in Hcopy, Hnew.
      remember (setProp "text" textObj' (setProp "text" textObj attrs))
        as attrs2 eqn:Hattrs2.
      assert (Hname2 : getV2CellName (withAttrs attrs2 cell) = name).
      { rewrite getV2CellName_precedence. cbn zeta.
        rewrite attrs_withAttrs. cbn [cell_data withAttrs].
        rewrite Hnew. cbn [asString]. rewrite (Hcopy "label") by done.
        rewrite Hname in Hn |- *. rewrite Hslot in Hn |- *.
        destruct (Model.nonBlank (cell_data cell ≫= data_name)) eqn:Hd;
          [done|].
        assert (Hblank : Model.nonBlank None = false) by done.
        rewrite Hblank in Hn |- *.
        destruct (asString (optProp "text" (assoc "label" attrs)))
          as [t2|] eqn:Ht2; [|done].
        destruct (Model.nonBlank (Some t2)) eqn:Hl; [|done].
        cbn [default from_option]. unfold Datatypes.id. by rewrite Hl. }
      unfold normalizeAttrs. rewrite Hname2, Hn, attrs_withAttrs.
      assert (Hobj : assoc "text" attrs2 = Some textObj')
        by (rewrite Hattrs2; apply assoc_setProp_eq).
      rewrite Hobj.
      assert (HtextObj' : asString (getProp "text" textObj') = Some name).
      { by rewrite (getProp_putProp_eq _ _ _ _ Hput). }
      destruct textObj; try done; cbn in Hput; injection Hput as <-;
        cbn in HtextObj' |- *; rewrite HtextObj'; by rewrite setProp_same. }
    destruct (assoc "text" attrs) as [v|] eqn:Htext.
    + destruct v as [|b|q|s|items props|props]; try done.
      * (* null *)
        cbn in Hrun. injection Hrun as <-.
        by apply (Hwritten (JsObj []) _ eq_refl).
      * cbn [getProp] in Hrun.
        destruct (asString (assoc "text" props)) as [slot|] eqn:Hslot.
        -- injection Hrun as <-.
           apply (Hkept (JsArr items props)); [done| |].
           ++ cbn. rewrite Hslot. by eexists.
           ++ by rewrite setProp_same.
        -- cbn in Hrun. injection Hrun as <-.
           by apply (Hwritten (JsArr items props) _ eq_refl).
      * cbn [getProp] in Hrun.
        destruct (asString (assoc "text" props)) as [slot|] eqn:Hslot.
        -- injection Hrun as <-.
           apply (Hkept (JsObj props)); [done| |].
           ++ cbn. rewrite Hslot. by eexists.
           ++ by rewrite setProp_same.
        -- cbn in Hrun. injection Hrun as <-.
           by apply (Hwritten (JsObj props) _ eq_refl).
    + cbn in Hrun. injection Hrun as <-.
      by apply (Hwritten (JsObj []) _ eq_refl).
  - (* there is no name *)
    injection Hrun as <-. unfold normalizeAttrs.
    by rewrite (Hsame eq_refl), Hn, attrs_withAttrs.
Qed.

End AdapterFacts.

Section AdapterGraphFacts.
Import Model.

Lemma normalizeAttrs_idempotent_witness :
  normalizeAttrs
    (withAttrs
       [("body", JsObj [("stroke", JsStr "#333333")]);
        ("text", JsObj [("text", JsStr "Application")])]
       (bareCell (Some [("body", JsObj [("stroke", JsStr "#333333")])])
          (Some "Application")))
  = Returned
      [("body", JsObj [("stroke", JsStr "#333333")]);
       ("text", JsObj [("text", JsStr "Application")])].
Proof.
  apply (normalizeAttrs_idempotent
           (bareCell (Some [("body", JsObj [("stroke", JsStr "#333333")])])
              (Some "Application"))).
  reflexivity.
Defined.

(** X5. A diagram all of whose cells have attributes that normalize is
    converted without an exception, and the records of the graph are those
    of the cells that have a position and a size, or a source or a target,
    in the order of the cells and with their ids; the other cells are
    dropped. *)
Theorem toJointGraphJson_keeps_classifiable diagram :
  Forall (fun cell => exists attrs, normalizeAttrs cell = Returned attrs)
    (default [] (cells diagram)) ->
  exists out,
    toJointGraphJson diagram = Returned out
    /\ jointId <$> out
       = cell_id <$> filter (fun c => classifiable c = true)
                       (default [] (cells diagram))
    /\ (length out <= length (default [] (cells diagram)))%nat.
Proof.
  intros Hcells.
  destruct (toJointGraphJson_returns diagram Hcells) as (out & Hrun & Hids).
  exists out. split; [done|]. split; [done|].
  apply (f_equal length) in Hids. rewrite !length_fmap in Hids.
  rewrite Hids. apply length_filter.
Qed.

Lemma toJointGraphJson_keeps_classifiable_witness :
  exists out,
    toJointGraphJson
      {| diagram_id := 0; diagram_title := "Threat Modelling";
         diagramType := "STRIDE";
         cells :=
           Some [applicationCell applicationAttrs (applicationData [] false)
                   None;
                 bareCell None (Some "Orphan")] |}
    = Returned out
    /\ jointId <$> out = ["90cdcc2d-21ab-443d-ae95-f97a798429e7"]
    /\ (length out <= 2)%nat.
Proof.
  apply (toJointGraphJson_keeps_classifiable
           {| diagram_id := 0; diagram_title := "Threat Modelling";
              diagramType := "STRIDE";
              cells :=
                Some [applicationCell applicationAttrs
                        (applicationData [] false) None;
                      bareCell None (Some "Orphan")] |}).
  repeat constructor; eexists; reflexivity.
Defined.

(** X6. A diagram that has only cells with a position and a size, whose
    attributes normalize, is converted to as many node records, in order,
    each with the id, the position and the size of its cell. *)
Theorem toJointGraphJson_nodes diagram cs :
  cells diagram = Some cs ->
  Forall
    (fun cell =>
       is_Some (cell_position cell) /\ is_Some (cell_size cell)
       /\ exists attrs, normalizeAttrs cell = Returned attrs)
    cs ->
  exists out,
    toJointGraphJson diagram = Returned out
    /\ Forall2
         (fun cell record =>
            exists n,
              record = NodeCell n
              /\ id (node_base n) = cell_id cell
              /\ cell_position cell = Some (node_position n)
              /\ cell_size cell = Some (node_size n))
         cs out.
Proof.
  intros Hcs Hnodes. unfold toJointGraphJson. rewrite Hcs. cbn [default from_option].
  unfold Datatypes.id. clear Hcs.
  induction Hnodes as [|cell cs ([p Hp] & [s Hs] & attrs & Hattrs) _ IH].
  - by exists [].
  - destruct IH as (out & Hout & Hall).
    destruct (node_precedence cell attrs p s Hattrs Hp Hs)
      as (n & Hrun & Hpos & Hsize & Hid & _).
    cbn [mapOutcome]. rewrite Hrun.
    destruct (mapOutcome v2CellToJointCell cs) as [rs|]; [|done].
    injection Hout as <-. exists (NodeCell n :: omap (fun c => c) rs).
    split; [done|]. constructor; [|done].
    exists n. by rewrite Hp, Hs, Hpos, Hsize.
Qed.

Lemma toJointGraphJson_nodes_witness :
  exists out,
    toJointGraphJson
      {| diagram_id := 0; diagram_title := "Threat Modelling";
         diagramType := "STRIDE";
         cells :=
           Some [applicationCell applicationAttrs (applicationData [] false)
                   None] |}
    = Returned out
    /\ Forall2
         (fun cell record =>
            exists n,
              record = NodeCell n
              /\ id (node_base n) = cell_id cell
              /\ cell_position cell = Some (node_position n)
              /\ cell_size cell = Some (node_size n))
         [applicationCell applicationAttrs (applicationData [] false) None]
         out.
Proof.
  apply (toJointGraphJson_nodes
           {| diagram_id := 0; diagram_title := "Threat Modelling";
              diagramType := "STRIDE";
              cells :=
                Some [applicationCell applicationAttrs
                        (applicationData [] false) None] |}).
  - reflexivity.
  - repeat constructor; eexists; reflexivity.
Defined.

Lemma length_omap_le {A B} (f : A -> option B) (l : list A) :
  (length (omap f l) <= length l)%nat.
Proof.
  induction l as [|a l IH]; cbn [omap list_omap]; [done|].
  destruct (f a); cbn [length]; lia.
Qed.

Lemma mapEdgeLabel_non_blank l label :
  mapEdgeLabel l = Some label -> truthy (trim (text label)) = true.
Proof.
  unfold mapEdgeLabel. destruct (label_attrs l) as [attrs|]; [|done].
  set (txt := if Model.nonBlank _ then _ else _).
  destruct (truthy txt); cbn [negb orb]; [|done].
  destruct (truthy (trim txt)) eqn:Htxt; cbn [negb]; [|done].
  by intros [= <-].
Qed.

(** X7. The labels of an edge record are never blank: every label the
    adapter keeps has a text that is not empty after trimming, and no label
    is added. *)
Theorem mapEdgeLabels_non_blank cell :
  Forall (fun label => truthy (trim (text label)) = true) (mapEdgeLabels cell)
  /\ (length (mapEdgeLabels cell) <= length (default [] (cell_labels cell)))%nat.
Proof.
  unfold mapEdgeLabels. split; [|apply length_omap_le].
  apply Forall_forall. intros label Hin.
  apply list_elem_of_omap in Hin as (l & _ & Hl).
  by eapply mapEdgeLabel_non_blank.
Qed.

(** X8. A cell that lacks a position or a size and has a source or a
    target, and whose attributes normalize, gives an edge record with as
    many vertices as the cell; the flow properties are on the record
    exactly when the data type of the cell is [tm.Flow]. *)
Theorem v2CellToJointCell_edge cell attrs :
  normalizeAttrs cell = Returned attrs ->
  cell_position cell = None \/ cell_size cell = None ->
  is_Some (cell_source cell) \/ is_Some (cell_target cell) ->
  exists e,
    v2CellToJointCell cell = Returned (Some (EdgeCell e))
    /\ id (edge_base e) = cell_id cell
    /\ source e = mapEdgeEnd (cell_source cell)
    /\ target e = mapEdgeEnd (cell_target cell)
    /\ length (vertices e) = length (default [] (cell_vertices cell))
    /\ (is_Some (isBidirectional e)
        <-> cell_data cell ≫= data_type = Some "tm.Flow")
    /\ (is_Some (protocol e)
        <-> cell_data cell ≫= data_type = Some "tm.Flow").
Proof.
  intros Hattrs Hgeometry Hend. unfold v2CellToJointCell. rewrite Hattrs.
  assert (Hcond : bool_decide (is_Some (cell_source cell))
                  || bool_decide (is_Some (cell_target cell)) = true).
  { destruct Hend as [H|H].
    - by rewrite (bool_decide_eq_true_2 _ H).
    - rewrite (bool_decide_eq_true_2 _ H). apply orb_true_r. }
  assert (Hflow : forall A (v : A),
             is_Some
               (if bool_decide (cell_data cell ≫= data_type = Some "tm.Flow")
                then Some v else None)
             <-> cell_data cell ≫= data_type = Some "tm.Flow").
  { intros A v.
    destruct (decide (cell_data cell ≫= data_type = Some "tm.Flow"))
      as [Hty|Hty].
    - rewrite bool_decide_eq_true_2 by done.
      split; [intros _; exact Hty|intros _; by eexists].
    - rewrite bool_decide_eq_false_2 by done.
      split; [intros [? [=]]|intros H; by destruct Hty]. }
  destruct (cell_position cell) as [p|], (cell_size cell) as [s|];
    try (by destruct Hgeometry);
    rewrite Hcond; eexists; (split; [reflexivity|]); cbn;
    rewrite length_fmap; repeat split; try done; apply Hflow.
Qed.

Lemma v2CellToJointCell_edge_witness :
  exists e,
    v2CellToJointCell
      {| cell_id := "flow1"; cell_shape := "flow"; cell_zIndex := Some 10%Q;
         cell_attrs := None;
         cell_data := Some (applicationData [] false);
         cell_visible := None; cell_position := None; cell_size := None;
         cell_source :=
           Some {| end_cell := Some "90cdcc2d-21ab-443d-ae95-f97a798429e7";
                   end_port := None; end_x := None; end_y := None |};
         cell_target :=
           Some {| end_cell := None; end_port := None;
                   end_x := Some 10%Q; end_y := Some 20%Q |};
         cell_vertices := Some [ {| x := 1; y := 2 |} ];
         cell_connector := Some "smooth"; cell_labels := None |}
    = Returned (Some (EdgeCell e))
    /\ id (edge_base e) = "flow1"
    /\ source e = EndId "90cdcc2d-21ab-443d-ae95-f97a798429e7" None
    /\ target e = EndPoint 10 20
    /\ length (vertices e) = 1%nat.
Proof.
  destruct (v2CellToJointCell_edge
              {| cell_id := "flow1"; cell_shape := "flow";
                 cell_zIndex := Some 10%Q;
                 cell_attrs := None;
                 cell_data := Some (applicationData [] false);
                 cell_visible := None; cell_position := None;
                 cell_size := None;
                 cell_source :=
                   Some {| end_cell :=
                             Some "90cdcc2d-21ab-443d-ae95-f97a798429e7";
                           end_port := None; end_x := None; end_y := None |};
                 cell_target :=
                   Some {| end_cell := None; end_port := None;
                           end_x := Some 10%Q; end_y := Some 20%Q |};
                 cell_vertices := Some [ {| x := 1; y := 2 |} ];
                 cell_connector := Some "smooth"; cell_labels := None |}
              [("text", JsObj [("text", JsStr "Application")])])
    as (e & Hrun & Hid & Hsource & Htarget & Hvertices & _).
  - reflexivity.
  - left. reflexivity.
  - left. eexists. reflexivity.
  - exists e. repeat split; assumption.
Defined.

End AdapterGraphFacts.

(** ** The shared utilities *)

Section ComponentNames.
Import Model Utils.

Lemma truthy_trim s : truthy (trim s) = true -> truthy s = true.
Proof. by destruct s. Qed.

(** The text of the record the adapter makes of a label whose resolved text
    is [txt]. *)
Lemma kept_label_text txt position :
  match
    (if negb (truthy txt) || negb (truthy (trim txt)) then None
     else Some {| Model.position := position; text := txt |})
  with
  | Some label => text label
  | None => ""
  end
  = if truthy (trim txt) then txt else "".
Proof.
  destruct (truthy (trim txt)) eqn:Htrim.
  - by rewrite (truthy_trim _ Htrim).
  - by rewrite orb_true_r.
Qed.

(** X9. The shared utilities and the adapter agree on names: the display
    name of a cell is the name the adapter writes as its label, and the
    flow label of a cell is the text of the record the adapter makes of its
    first label, or empty when the adapter skips that label or there is
    none. *)
Theorem display_name_agrees cell :
  getV2CellDisplayName cell = getV2CellName cell
  /\ getV2FlowLabel cell
     = match head (default [] (cell_labels cell)) ≫= mapEdgeLabel with
       | Some label => text label
       | None => ""
       end.
Proof.
  split; [done|]. unfold getV2FlowLabel.
  destruct (default [] (cell_labels cell)) as [|l ls]; [done|].
  cbn [head mbind option_bind]. unfold mapEdgeLabel.
  destruct (label_attrs l) as [attrs|]; [|done].
  rewrite kept_label_text.
  destruct (asString (optProp "text" (assoc "labelText" attrs)))
    as [labelText|];
    destruct (asString (optProp "text" (assoc "label" attrs))) as [label|];
    cbn [Model.nonBlank Utils.nonBlank default from_option];
    unfold Datatypes.id;
    repeat match goal with
      | |- context [truthy (trim ?x)] =>
          let H := fresh in destruct (truthy (trim x)) eqn:H; try rewrite H
      end; done.
Qed.

Lemma eqb_tm_kind kind :
  String.eqb ("tm." +:+ kind) "tm.Flow" = String.eqb kind "Flow".
Proof. done. Qed.

(** X10. The name of a component whose data type is [tm.] followed by a
    kind is the kind, followed by a colon and a name when there is one; the
    name is the flow label for a flow that has one, and the display name
    otherwise.  No component gives the empty name. *)
Theorem getComponentName_kind cell kind :
  cell_data cell ≫= data_type = Some ("tm." +:+ kind) ->
  let shown :=
    if String.eqb kind "Flow" && truthy (getV2FlowLabel cell)
    then getV2FlowLabel cell
    else getV2CellDisplayName cell in
  getComponentName (Some cell)
  = (if truthy shown then kind +:+ ": " +:+ shown else kind)
  /\ getComponentName None = "".
Proof.
  intros Htype shown. split; [|done].
  unfold getComponentName, getV2CellType. rewrite Htype.
  cbn [default from_option]. unfold Datatypes.id.
  rewrite eqb_tm_kind.
  assert (Hprefix : (if startsWith "tm." ("tm." +:+ kind)
                     then slice 3 ("tm." +:+ kind) else "tm." +:+ kind) = kind).
  { cbn. by destruct kind; rewrite ?Ascii.eqb_refl. }
  rewrite Hprefix. unfold shown.
  destruct (String.eqb kind "Flow"); [|done].
  cbn [andb]. by destruct (truthy (getV2FlowLabel cell)).
Qed.

Lemma getComponentName_kind_witness :
  getComponentName
    (Some (applicationCell applicationAttrs (applicationData [] false) None))
  = "Actor: Application".
Proof.
  apply (getComponentName_kind
           (applicationCell applicationAttrs (applicationData [] false) None)
           "Actor").
  reflexivity.
Defined.

End ComponentNames.

(** ** The report: flattening and formatting *)

Section ReportFacts.
Import Endpoints.

(** X11. [getThreats] returns two segments: the gameplay threats, as they
    are returned without a document, then the threats of the document, as
    they are returned for a game without identified threats; and every
    threat stored in a cell of the document is in the list, unmodified. *)
Theorem getThreats_segments gameState metadata doc dIdx cIdx data ts t :
  dataAt doc dIdx cIdx = Some data ->
  data_threats data = Some ts ->
  t ∈ ts ->
  getThreats gameState metadata (Some doc)
  = (getThreats gameState metadata None
       ++ getThreats (withoutIdentifiedThreats gameState) metadata (Some doc))%list
  /\ t ∈ getThreats gameState metadata (Some doc).
Proof.
  intros Hdata Hts Hin. split.
  { unfold getThreats. cbn. by rewrite app_nil_r. }
  unfold getThreats. apply elem_of_app. right.
  unfold dataAt, cellAt in Hdata.
  destruct (diagrams (detail doc) !! dIdx) as [d|] eqn:Hd; [|done].
  cbn in Hdata. destruct (cells d) as [cs|] eqn:Hcs; [|done].
  cbn in Hdata. destruct (cs !! cIdx) as [c|] eqn:Hc; [|done].
  cbn in Hdata.
  apply list_elem_of_bind. exists d. split; [|by eapply list_elem_of_lookup_2].
  apply list_elem_of_bind. exists c. rewrite Hcs. split;
    [|by eapply list_elem_of_lookup_2].
  rewrite Hdata. cbn. by rewrite Hts.
Qed.

Lemma getThreats_segments_witness :
  oldThreat
  ∈ getThreats (state sampleGame) roster (Some (defaultModel [oldThreat] true)).
Proof.
  apply (getThreats_segments (state sampleGame) roster
           (defaultModel [oldThreat] true) 0 0
           (applicationData [oldThreat] true) [oldThreat] oldThreat).
  - reflexivity.
  - reflexivity.
  - apply list_elem_of_here.
Defined.

(** X12. A mitigation that is the text ["No mitigation provided."] is
    rendered like an absent mitigation, with no line; every other
    mitigation gives one more line, the last. *)
Theorem mitigation_line threat index mitigation :
  threatLines (withMitigation (Some mitigation) threat) index
  = if String.eqb mitigation "No mitigation provided."
    then threatLines (withMitigation None threat) index
    else (threatLines (withMitigation None threat) index
            ++ ["    - *Mitigation:* "
                  +:+ escapeMarkdownText
                        (replaceRuns isLineBreak " " false mitigation)])%list.
Proof.
  unfold threatLines. cbn [threat_mitigation threat_title threat_category
    threat_severity threat_owner threat_description withMitigation].
  destruct (String.eqb mitigation "No mitigation provided."); [done|].
  by rewrite !app_nil_r, <-!app_assoc.
Qed.

Lemma occurs_replaceAll_other c pat rep s :
  c <> pat -> occurs c rep = false ->
  occurs c (replaceAll pat rep s) = occurs c s.
Proof.
  intros Hne Hrep. induction s as [|c' s IH]; simpl; [done|].
  destruct (Ascii.eqb_spec c' pat) as [->|Hne'].
  - rewrite occurs_app, Hrep, IH.
    apply not_eq_sym in Hne. by apply Ascii.eqb_neq in Hne as ->.
  - simpl. by rewrite IH.
Qed.

Lemma occurs_replaceClass_other c p f s :
  p c = false -> (forall c', p c' = true -> occurs c (f c') = false) ->
  occurs c (replaceClass p f s) = occurs c s.
Proof.
  intros Hc Hf. induction s as [|c' s IH]; simpl; [done|].
  destruct (p c') eqn:Hp.
  - rewrite occurs_app, Hf, IH by done.
    destruct (Ascii.eqb_spec c' c) as [->|]; [congruence|done].
  - simpl. by rewrite IH.
Qed.

Lemma occurs_replaceRuns c p rep b s :
  p c = true -> occurs c rep = false ->
  occurs c (replaceRuns p rep b s) = false.
Proof.
  intros Hc Hrep. revert b. induction s as [|c' s IH]; intros b; simpl; [done|].
  destruct (p c') eqn:Hp.
  - rewrite occurs_app, IH. destruct b; [done|]. by rewrite Hrep.
  - simpl. rewrite IH.
    destruct (Ascii.eqb_spec c' c) as [->|]; [congruence|done].
Qed.

(** A code unit that is not one of the escaped ones, neither a backslash
    nor one of the code units of the entities, occurs in the escaped text
    exactly when it occurs in the text. *)
Lemma occurs_escapeMarkdownText c s :
  isBracketOrBang c = false -> c <> "<"%char -> c <> ">"%char ->
  occurs c "\&lt;&gt;" = false ->
  occurs c (escapeMarkdownText s) = occurs c s.
Proof.
  intros Hclass Hlt Hgt Hout. unfold escapeMarkdownText.
  cbn in Hout. apply orb_false_elim in Hout as [Hbs Hout].
  rewrite !occurs_replaceAll_other; try done.
  - apply occurs_replaceClass_other; [done|]. intros c' Hc'. cbn.
    rewrite Hbs. destruct (Ascii.eqb_spec c' c) as [->|]; [congruence|done].
  - cbn. repeat (apply orb_false_elim in Hout as [? Hout]).
    by repeat (apply orb_false_intro; [done|]).
  - cbn. repeat (apply orb_false_elim in Hout as [? Hout]).
    repeat (apply orb_false_intro; try done).
Qed.

(** X13. The line of the description of a threat holds no line break:
    every run of carriage returns and line feeds of the description has
    become one space before the text is escaped. *)
Theorem description_line_has_no_line_break threat index description :
  threat_description threat = Some description ->
  let line :=
    "    - *Description:* "
      +:+ escapeMarkdownText (replaceRuns isLineBreak " " false description) in
  line ∈ threatLines threat index
  /\ occurs "010" line = false
  /\ occurs "013" line = false.
Proof.
  intros Hdescription line. split; [|split].
  - unfold threatLines. rewrite Hdescription.
    apply elem_of_app. right. apply elem_of_app. right.
    apply elem_of_app. right. apply elem_of_app. right.
    apply elem_of_app. left. apply list_elem_of_here.
  - unfold line. rewrite occurs_app, occurs_escapeMarkdownText by done.
    by rewrite occurs_replaceRuns.
  - unfold line. rewrite occurs_app, occurs_escapeMarkdownText by done.
    by rewrite occurs_replaceRuns.
Qed.

Lemma description_line_has_no_line_break_witness :
  "    - *Description:* a b" ∈ threatLines
    (flattenedThreat roster
       {| gt_id := None; gt_title := Some "T";
          gt_description := Some (String "a" (String "013" (String "010" "b")));
          gt_mitigation := None; gt_severity := None; gt_type := None;
          gt_owner := None; gt_extra := [] |})
    0.
Proof.
  apply (description_line_has_no_line_break
           (flattenedThreat roster
              {| gt_id := None; gt_title := Some "T";
                 gt_description :=
                   Some (String "a" (String "013" (String "010" "b")));
                 gt_mitigation := None; gt_severity := None; gt_type := None;
                 gt_owner := None; gt_extra := [] |})
           0 (String "a" (String "013" (String "010" "b")))).
  reflexivity.
Defined.

(** X14. The escaped text holds no angle bracket: every [<] and every [>]
    has become an entity. *)
Theorem escapeMarkdownText_no_angle_bracket text :
  occurs "<" (escapeMarkdownText text) = false
  /\ occurs ">" (escapeMarkdownText text) = false.
Proof.
  unfold escapeMarkdownText. split.
  - rewrite occurs_replaceAll_other by done. by apply occurs_replaceAll.
  - by apply occurs_replaceAll.
Qed.

Lemma append_cons c s1 s2 : String c s1 +:+ s2 = String c (s1 +:+ s2).
Proof. done. Qed.

Lemma append_assoc s1 s2 s3 : (s1 +:+ s2) +:+ s3 = s1 +:+ s2 +:+ s3.
Proof.
  induction s1 as [|c s1 IH]; [done|]. by rewrite !append_cons, IH.
Qed.

Lemma replaceAll_app pat rep s1 s2 :
  replaceAll pat rep (s1 +:+ s2)
  = replaceAll pat rep s1 +:+ replaceAll pat rep s2.
Proof.
  induction s1 as [|c s1 IH]; [done|]. rewrite append_cons. cbn [replaceAll].
  destruct (Ascii.eqb c pat); rewrite IH; [|done].
  by rewrite append_assoc.
Qed.

Lemma replaceClass_app p f s1 s2 :
  replaceClass p f (s1 +:+ s2)
  = replaceClass p f s1 +:+ replaceClass p f s2.
Proof.
  induction s1 as [|c s1 IH]; [done|]. rewrite append_cons. cbn [replaceClass].
  destruct (p c); rewrite IH; [|done].
  by rewrite append_assoc.
Qed.

Lemma not_escaped c :
  occurs c "![]()<>" = false ->
  isBracketOrBang c = false
  /\ Ascii.eqb c "<" = false /\ Ascii.eqb c ">" = false.
Proof. by destruct c as [[] [] [] [] [] [] [] []]. Qed.

(** X15. Escaping works code unit by code unit: the escaped text of a
    concatenation is the concatenation of the escaped texts, and a text
    without any of the code units [!], [[], []], [(], [)], [<] and [>] is
    left as it is. *)
Theorem escapeMarkdownText_app text1 text2 :
  escapeMarkdownText (text1 +:+ text2)
  = escapeMarkdownText text1 +:+ escapeMarkdownText text2
  /\ ((forall c, occurs c "![]()<>" = true -> occurs c text1 = false) ->
      escapeMarkdownText text1 = text1).
Proof.
  split.
  - unfold escapeMarkdownText.
    by rewrite replaceClass_app, !replaceAll_app.
  - intros Hfree. unfold escapeMarkdownText.
    induction text1 as [|c s IH]; [done|].
    assert (Hc : occurs c "![]()<>" = false).
    { destruct (occurs c "![]()<>") eqn:Hocc; [|done].
      specialize (Hfree c Hocc). cbn [occurs] in Hfree.
      by rewrite Ascii.eqb_refl in Hfree. }
    assert (Hs : replaceAll ">" "&gt;"
                   (replaceAll "<" "&lt;"
                      (replaceClass isBracketOrBang
                         (fun c => String "\" (String c "")) s)) = s).
    { apply IH. intros c' Hc'. specialize (Hfree c' Hc').
      cbn [occurs] in Hfree. by apply orb_false_elim in Hfree as [_ ?]. }
    destruct (not_escaped c Hc) as (Hclass & Hlt & Hgt).
    cbn [replaceClass]. rewrite Hclass. cbn [replaceAll]. rewrite Hlt.
    cbn [replaceAll]. by rewrite Hgt, Hs.
Qed.

Lemma escapeMarkdownText_app_witness :
  escapeMarkdownText "*bold* _x_" = "*bold* _x_".
Proof.
  apply (proj2 (escapeMarkdownText_app "*bold* _x_" "")).
  intros c. destruct c as [[] [] [] [] [] [] [] []]; vm_compute;
    intros Hc; solve [reflexivity | discriminate Hc].
Defined.

End ReportFacts.

(** ** The export of the model: further facts on the merge *)

Section MergeFacts.
Import Endpoints.
Variable cards : CardDefinitions.

Lemma forEach_unchanged {A} (f : A -> nat -> M unit) (xs : list A) i
    (h : Heap) :
  (forall j a, xs !! j = Some a -> f a (i + j)%nat h = (Returned tt, h)) ->
  forEach f i xs h = (Returned tt, h).
Proof.
  revert i. induction xs as [|a xs IH]; intros i Hf; [done|].
  cbn [forEach]. unfold mbind, M_bind, bind.
  rewrite <-(Nat.add_0_r i) at 1. rewrite (Hf 0%nat a eq_refl).
  apply IH. intros j b Hb. rewrite Nat.add_succ_comm. by apply Hf.
Qed.

(** X16. Gameplay threats of components that the document does not have
    are skipped silently: when no component id of the index names a cell of
    the diagram at the position of its slot (the diagram or its cells may
    be missing), the export of the model answers with the stored document
    and leaves the store as it was. *)
Theorem merge_skips_unknown_components matchID game now (h : Heap) l doc :
  model game = ModelDoc l ->
  isJsonModel (state game) = true ->
  h !! l = Some doc ->
  (forall dIdx slot componentId,
      identifiedThreats (state game) !! dIdx = Some (Some slot) ->
      componentId ∈ keys slot ->
      findCellIn (diagrams (detail doc) !! dIdx) componentId = None) ->
  exists filename,
    downloadThreatDragonModel cards (Some matchID) game now h
    = (Returned (ModelAttachment filename l), h).
Proof.
  intros Hmodel Hjson Hdoc Hunknown.
  unfold downloadThreatDragonModel. rewrite Hmodel, Hjson.
  unfold mbind, M_bind, bind. rewrite forEach_unchanged.
  - unfold deref. rewrite Hdoc. by eexists.
  - intros dIdx [slot|] Hslot; [|done]. cbn [Nat.add].
    unfold mergeDiagram, readDiagram, deref, mbind, M_bind, bind, ret.
    rewrite Hdoc. destruct (diagrams (detail doc) !! dIdx) as [d|] eqn:Hd;
      [|done].
    apply forEach_unchanged. intros j componentId Hkey.
    unfold mergeComponent, readDiagram, deref, mbind, M_bind, bind, ret.
    rewrite Hdoc, Hd.
    rewrite <-Hd, (Hunknown dIdx slot componentId Hslot); [done|].
    by eapply list_elem_of_lookup_2.
Qed.

(** X17. A gameplay threat on a cell without data makes the export of the
    model raise a [TypeError]: when the first component of the first slot
    of the index names a cell that has no data, the handler raises at the
    read of the threats of the cell, and the store is as it was. *)
Theorem merge_raises_on_cell_without_data matchID game now (h : Heap) l doc
    componentId threatsInGame slot index cIdx :
  model game = ModelDoc l ->
  isJsonModel (state game) = true ->
  h !! l = Some doc ->
  identifiedThreats (state game)
  = Some ((componentId, Some threatsInGame) :: slot) :: index ->
  findCellIn (diagrams (detail doc) !! 0%nat) componentId = Some cIdx ->
  dataAt doc 0 cIdx = None ->
  downloadThreatDragonModel cards (Some matchID) game now h
  = (Raised (TypeError "Cannot read properties of undefined"), h).
Proof.
  intros Hmodel Hjson Hdoc Hindex Hfind Hdata.
  unfold downloadThreatDragonModel. rewrite Hmodel, Hjson, Hindex.
  cbn [forEach]. unfold mbind, M_bind, bind.
  unfold mergeDiagram, readDiagram, deref, mbind, M_bind, bind, ret.
  rewrite Hdoc.
  destruct (diagrams (detail doc) !! 0%nat) as [d|] eqn:Hd; [|done].
  cbn [keys fmap list_fmap fst forEach]. unfold mbind, M_bind, bind.
  unfold mergeComponent, mbind, M_bind, bind.
  unfold readDiagram, deref, mbind, M_bind, bind, ret.
  rewrite Hdoc, Hd, Hfind. cbn [assoc]. rewrite String.eqb_refl.
  by rewrite run_readData, Hdoc, Hdata.
Qed.

Lemma findCell_alter componentId (g : CellV2 -> CellV2) cIdx cs :
  (forall c, cell_id (g c) = cell_id c) ->
  findCell componentId (alter g cIdx cs) = findCell componentId cs.
Proof.
  intros Hid. revert cIdx. induction cs as [|c cs IH]; intros cIdx; [done|].
  destruct cIdx as [|cIdx]; cbn.
  - by rewrite Hid.
  - by rewrite IH.
Qed.

(** A write of the data of a cell does not change which cell an id
    names. *)
Lemma findCellIn_alterData dIdx cIdx f doc dIdx' componentId :
  findCellIn (diagrams (detail (alterData dIdx cIdx f doc)) !! dIdx')
    componentId
  = findCellIn (diagrams (detail doc) !! dIdx') componentId.
Proof.
  unfold alterData. cbn [detail diagrams setDiagrams].
  destruct (decide (dIdx = dIdx')) as [<-|Hne];
    [|by rewrite list_lookup_alter_ne].
  rewrite list_lookup_alter_eq.
  destruct (diagrams (detail doc) !! dIdx) as [d|]; [|done].
  cbn. destruct (cells d) as [cs|]; [|done]. cbn.
  by apply findCell_alter.
Qed.

(** X18. The merge does not look for duplicates: the merge of the threats
    of a component done twice on the same stored document leaves, in the
    cell, the former threats followed by the constructed records twice. *)
Theorem merge_twice_appends_twice matchID G metadata l dIdx
    threatsForComponent componentId n (h : Heap) doc cIdx threatsInGame data :
  h !! l = Some doc ->
  findCellIn (diagrams (detail doc) !! dIdx) componentId = Some cIdx ->
  assoc componentId threatsForComponent = Some (Some threatsInGame) ->
  dataAt doc dIdx cIdx = Some data ->
  let once :=
    mergeComponent cards matchID G metadata l dIdx threatsForComponent
      componentId n in
  let new := mergedThreat cards matchID G metadata <$> values threatsInGame in
  exists doc' data',
    (once (once h).2).2 !! l = Some doc'
    /\ dataAt doc' dIdx cIdx = Some data'
    /\ data_threats data'
       = Some (default [] (data_threats data) ++ new ++ new)%list.
Proof.
  intros Hdoc Hfind Hassoc Hdata once new. unfold once.
  rewrite (run_mergeComponent cards matchID G metadata l dIdx
             threatsForComponent componentId n h doc cIdx threatsInGame data
             Hdoc Hfind Hassoc Hdata).
  cbn [snd].
  erewrite (run_mergeComponent cards matchID G metadata l dIdx
              threatsForComponent componentId n _ _ cIdx threatsInGame);
    [|apply lookup_insert_eq|by rewrite findCellIn_alterData|done
     |by rewrite dataAt_alterData_eq, Hdata].
  cbn [snd]. rewrite lookup_insert_eq. eexists _, _. split; [done|].
  rewrite dataAt_alterData_eq, dataAt_alterData_eq, Hdata. split; [done|].
  cbn. unfold mergedThreats. cbn. by rewrite <-app_assoc.
Qed.

Lemma existsb_isOpen_merged matchID G metadata (ts : list GameThreat) :
  existsb isOpen (mergedThreat cards matchID G metadata <$> ts)
  = match ts with [] => false | _ :: _ => true end.
Proof. by destruct ts. Qed.

(** X19. After the merge of the threats of a component the flag of the
    cell is a boolean: it is true exactly when it was true before, or a
    former threat of the cell has the status ["Open"], or the component has
    at least one threat. *)
Theorem merge_sets_flag matchID G metadata l dIdx threatsForComponent
    componentId n (h : Heap) doc cIdx threatsInGame data :
  h !! l = Some doc ->
  findCellIn (diagrams (detail doc) !! dIdx) componentId = Some cIdx ->
  assoc componentId threatsForComponent = Some (Some threatsInGame) ->
  dataAt doc dIdx cIdx = Some data ->
  exists doc' data',
    (mergeComponent cards matchID G metadata l dIdx threatsForComponent
       componentId n h).2 !! l = Some doc'
    /\ dataAt doc' dIdx cIdx = Some data'
    /\ data_hasOpenThreats data'
       = Some (toBool (data_hasOpenThreats data)
               || existsb isOpen (default [] (data_threats data))
               || match threatsInGame with [] => false | _ :: _ => true end).
Proof.
  intros Hdoc Hfind Hassoc Hdata.
  erewrite run_mergeComponent by done. cbn [snd].
  rewrite lookup_insert_eq. eexists _, _. split; [done|].
  rewrite dataAt_alterData_eq, Hdata. split; [done|].
  cbn. unfold mergedFlag, mergedThreats.
  rewrite existsb_app, existsb_isOpen_merged.
  destruct (data_hasOpenThreats data) as [[]|]; cbn; try done;
    by destruct threatsInGame.
Qed.

End MergeFacts.

Section MergeFactsWitnesses.
Import Endpoints.

Lemma merge_skips_unknown_components_witness :
  exists filename,
    downloadThreatDragonModel sampleCards (Some "match")
      (withState
         (withIdentifiedThreats
            [None; Some [("no-such-cell", Some [("t", oneThreat None None)])]]
            (state sampleGame))
         sampleGame)
      sampleNow {[ 1%positive := defaultModel [] false ]}
    = (Returned (ModelAttachment filename 1%positive),
       {[ 1%positive := defaultModel [] false ]}).
Proof.
  apply (merge_skips_unknown_components sampleCards "match"
           (withState
              (withIdentifiedThreats
                 [None;
                  Some [("no-such-cell", Some [("t", oneThreat None None)])]]
                 (state sampleGame))
              sampleGame)
           sampleNow {[ 1%positive := defaultModel [] false ]} 1%positive
           (defaultModel [] false)).
  - reflexivity.
  - reflexivity.
  - reflexivity.
  - intros [|[|dIdx]] slot componentId Hslot Hkey; try discriminate Hslot.
    reflexivity.
Defined.

Lemma merge_raises_on_cell_without_data_witness :
  downloadThreatDragonModel sampleCards (Some "match") sampleGame sampleNow
    {[ 1%positive :=
         setDiagrams
           [ {| diagram_id := 0; diagram_title := "Threat Modelling";
                diagramType := "STRIDE";
                cells :=
                  Some [setData None
                          (applicationCell applicationAttrs
                             (applicationData [] false) None)] |} ]
           (defaultModel [] false) ]}
  = (Raised (TypeError "Cannot read properties of undefined"),
     {[ 1%positive :=
          setDiagrams
            [ {| diagram_id := 0; diagram_title := "Threat Modelling";
                 diagramType := "STRIDE";
                 cells :=
                   Some [setData None
                           (applicationCell applicationAttrs
                              (applicationData [] false) None)] |} ]
            (defaultModel [] false) ]}).
Proof.
  eapply (merge_raises_on_cell_without_data sampleCards "match" sampleGame sampleNow
            _ 1%positive _ _ _ _ _ 0%nat); reflexivity.
Defined.

Lemma merge_twice_appends_twice_witness :
  exists doc' data',
    (mergeComponent sampleCards "match" (state sampleGame) roster 1%positive
       0 [("90cdcc2d-21ab-443d-ae95-f97a798429e7",
           Some [("t", oneThreat (Some "T") None)])]
       "90cdcc2d-21ab-443d-ae95-f97a798429e7" 0
       (mergeComponent sampleCards "match" (state sampleGame) roster
          1%positive 0
          [("90cdcc2d-21ab-443d-ae95-f97a798429e7",
            Some [("t", oneThreat (Some "T") None)])]
          "90cdcc2d-21ab-443d-ae95-f97a798429e7" 0
          {[ 1%positive := defaultModel [oldThreat] false ]}).2).2
      !! 1%positive
    = Some doc'
    /\ dataAt doc' 0 0 = Some data'
    /\ (length <$> data_threats data') = Some 3%nat.
Proof.
  destruct (merge_twice_appends_twice sampleCards "match" (state sampleGame) roster
              1%positive 0
              [("90cdcc2d-21ab-443d-ae95-f97a798429e7",
                Some [("t", oneThreat (Some "T") None)])]
              "90cdcc2d-21ab-443d-ae95-f97a798429e7" 0
              {[ 1%positive := defaultModel [oldThreat] false ]}
              (defaultModel [oldThreat] false) 0
              [("t", oneThreat (Some "T") None)]
              (applicationData [oldThreat] false))
    as (doc' & data' & Hdoc' & Hdata' & Hthreats).
  - reflexivity.
  - reflexivity.
  - reflexivity.
  - reflexivity.
  - exists doc', data'. split; [exact Hdoc'|]. split; [exact Hdata'|].
    rewrite Hthreats. reflexivity.
Defined.

Lemma merge_sets_flag_witness :
  exists doc' data',
    (mergeComponent sampleCards "match" (state sampleGame) roster 1%positive
       0 [("90cdcc2d-21ab-443d-ae95-f97a798429e7",
           Some [("t", oneThreat (Some "T") None)])]
       "90cdcc2d-21ab-443d-ae95-f97a798429e7" 0
       {[ 1%positive := defaultModel [] false ]}).2 !! 1%positive
    = Some doc'
    /\ dataAt doc' 0 0 = Some data'
    /\ data_hasOpenThreats data' = Some true.
Proof.
  apply (merge_sets_flag sampleCards "match" (state sampleGame) roster 1%positive 0
           [("90cdcc2d-21ab-443d-ae95-f97a798429e7",
             Some [("t", oneThreat (Some "T") None)])]
           "90cdcc2d-21ab-443d-ae95-f97a798429e7" 0
           {[ 1%positive := defaultModel [] false ]}
           (defaultModel [] false) 0 [("t", oneThreat (Some "T") None)]
           (applicationData [] false)); reflexivity.
Defined.

End MergeFactsWitnesses.

(** ** The image of a match and the export of its model *)

Section ImageFacts.
Import Endpoints ImageEndpoint.

(** X20. No match gets both its image and the export of its model: for
    every stored model one of the two handlers answers with the status 400;
    the image of a match whose stored model is the placeholder of an image
    is sent from the file named by the match and the extension, and the
    export of the model of that match is rejected, the store left as it
    was. *)
Theorem image_or_model cards matchID game now (h : Heap) extension :
  ((exists message, getImage (Some matchID) game = ImageThrow message 400)
   \/ exists message,
        downloadThreatDragonModel cards (Some matchID) game now h
        = (Returned (Throw message 400), h))
  /\ (model game = ModelImage extension ->
      getImage (Some matchID) game
      = ImageSend (matchID +:+ "." +:+ extension)
      /\ exists message,
           downloadThreatDragonModel cards (Some matchID) game now h
           = (Returned (Throw message 400), h)).
Proof.
  unfold getImage, downloadThreatDragonModel. split.
  - destruct (model game); [left|right|left]; by eexists.
  - intros ->. split; [done|by eexists].
Qed.

Lemma image_or_model_witness :
  getImage (Some "match") imageGame = ImageSend "match.png"
  /\ exists message,
       downloadThreatDragonModel sampleCards (Some "match") imageGame
         sampleNow ∅
       = (Returned (Throw message 400), ∅).
Proof.
  apply (proj2 (image_or_model sampleCards "match" imageGame sampleNow ∅ "png")).
  reflexivity.
Defined.

Lemma replaceFirst_first pat rep s1 s2 :
  occurs pat s1 = false ->
  replaceFirst pat rep (s1 +:+ String pat s2) = s1 +:+ rep +:+ s2.
Proof.
  induction s1 as [|c s1 IH]; intros Hfree.
  - change (replaceFirst pat rep (String pat s2) = rep +:+ s2).
    cbn [replaceFirst]. by rewrite Ascii.eqb_refl.
  - cbn [occurs] in Hfree. apply orb_false_elim in Hfree as [Hc Hfree].
    rewrite !append_cons. cbn [replaceFirst]. rewrite Hc. by rewrite IH.
Qed.

(** X21. The file name of the export of the model replaces one space and
    one colon only: for a title with a first space and a timestamp with a
    first colon, the first space of the title and the first colon of the
    timestamp become hyphens and what follows them is kept as it is, further
    spaces and colons included. *)
Theorem model_filename cards matchID game now (h : Heap) l doc
    title1 title2 now1 now2 :
  model game = ModelDoc l ->
  isJsonModel (state game) = true ->
  h !! l = Some doc ->
  wellTyped doc ->
  title (summary doc) = title1 +:+ String " " title2 ->
  occurs " " title1 = false ->
  now = now1 +:+ String ":" now2 ->
  occurs ":" now1 = false ->
  exists h',
    downloadThreatDragonModel cards (Some matchID) game now h
    = (Returned
         (ModelAttachment
            (title1 +:+ "-" +:+ title2 +:+ "-" +:+ now1 +:+ "-" +:+ now2
               +:+ ".json")
            l),
       h').
Proof.
  intros Hmodel Hjson Hdoc Hty Htitle Htitle1 Hnow Hnow1.
  unfold downloadThreatDragonModel. rewrite Hmodel, Hjson.
  destruct (grows_merge cards matchID (state game) (metadata game) l h)
    as [Hle Hret].
  destruct Hret as [[] Hret]; [by exists doc|].
  unfold mbind, M_bind, bind.
  destruct (forEach _ 0 (identifiedThreats (state game)) h)
    as [r h'] eqn:Hrun. cbn in Hle, Hret. subst r.
  destruct (heap_le_insert _ _ _ _ _ Hle Hdoc) as (doc' & -> & Hdoc_le).
  unfold deref. rewrite lookup_insert_eq. unfold ret.
  destruct Hdoc_le as [Heq _].
  assert (Hsummary : summary doc' = summary doc) by by rewrite Heq.
  rewrite Hsummary, Htitle, Hnow, !replaceFirst_first by done.
  rewrite !append_assoc. by eexists.
Qed.

Lemma model_filename_witness :
  exists h',
    downloadThreatDragonModel sampleCards (Some "match") sampleGame sampleNow
      {[ 1%positive := defaultModel [] false ]}
    = (Returned
         (ModelAttachment
            "Threat-Modelling-2026-01-01T10-20:30.000Z.json" 1%positive),
       h').
Proof.
  apply (model_filename sampleCards "match" sampleGame sampleNow
           {[ 1%positive := defaultModel [] false ]} 1%positive
           (defaultModel [] false) "Threat" "Modelling" "2026-01-01T10"
           "20:30.000Z").
  - reflexivity.
  - reflexivity.
  - reflexivity.
  - apply defaultModel_wellTyped.
  - reflexivity.
  - reflexivity.
  - reflexivity.
  - reflexivity.
Defined.

End ImageFacts.

(** ** The shared utilities: cards, players and file names *)

Section UtilsFacts.
Import Utils.

(** X22. Valid moves follow suit: in a round with a current suit of which
    the hand has a card, the valid moves are the cards of the hand that
    start with the suit, and there is one; with a current suit of which the
    hand has no card, every card of the hand is a valid move. *)
Theorem getValidMoves_follows_suit hand suit round startingCard :
  truthy suit = true ->
  let moves := getValidMoves hand (Some suit) round startingCard in
  (forall card, card ∈ hand -> startsWith suit card = true ->
     moves <> []
     /\ forall move, move ∈ moves
          <-> move ∈ hand /\ startsWith suit move = true)
  /\ ((forall card, card ∈ hand -> startsWith suit card = false) ->
      moves = hand).
Proof.
  intros Hsuit moves. unfold moves, getValidMoves, getCardsOfSuit.
  cbn [default from_option]. unfold Datatypes.id. rewrite Hsuit.
  cbn [negb andb]. split.
  - intros card Hin Hcard.
    assert (Hne : filter (fun e => startsWith suit e = true) hand <> []).
    { intros Hnil. assert (Hc : card ∈ filter (fun e => startsWith suit e = true) hand)
        by by apply list_elem_of_filter.
      rewrite Hnil in Hc. by apply not_elem_of_nil in Hc. }
    destruct (filter (fun e => startsWith suit e = true) hand)
      as [|m ms] eqn:Hfilter; [done|].
    cbn. split; [done|]. intros move. rewrite <-Hfilter.
    rewrite list_elem_of_filter. tauto.
  - intros Hnone.
    assert (Hnil : filter (fun e => startsWith suit e = true) hand = []).
    { apply elem_of_nil_inv. intros card Hc.
      apply list_elem_of_filter in Hc as [Hs Hin].
      rewrite (Hnone card Hin) in Hs. discriminate. }
    by rewrite Hnil.
Qed.

Lemma getValidMoves_follows_suit_witness :
  getValidMoves ["E2"; "T3"; "EA"] (Some "E") 2 "E3" <> []
  /\ forall move,
       move ∈ getValidMoves ["E2"; "T3"; "EA"] (Some "E") 2 "E3"
       <-> move ∈ ["E2"; "T3"; "EA"] /\ startsWith "E" move = true.
Proof.
  apply (proj1 (getValidMoves_follows_suit ["E2"; "T3"; "EA"] "E" 2 "E3"
                  eq_refl) "E2").
  - apply list_elem_of_here.
  - reflexivity.
Defined.

(** X23. A valid move is the starting card or a card of the hand, and a
    player with a card in hand always has a valid move; the starting card
    is the only valid move exactly in a first round without a current
    suit. *)
Theorem getValidMoves_from_hand hand suit round startingCard :
  (forall move,
      move ∈ getValidMoves hand suit round startingCard ->
      move = startingCard \/ move ∈ hand)
  /\ (hand <> [] -> getValidMoves hand suit round startingCard <> [])
  /\ (truthy (default "" suit) = false -> (round <= 1)%Z ->
      getValidMoves hand suit round startingCard = [startingCard])
  /\ (truthy (default "" suit) = false -> (1 < round)%Z ->
      getValidMoves hand suit round startingCard = hand).
Proof.
  unfold getValidMoves, getCardsOfSuit. repeat split.
  - intros move.
    destruct (negb (truthy (default "" suit)) && (round <=? 1)%Z).
    + intros Hin. left. by apply list_elem_of_singleton in Hin.
    + destruct suit as [s|]; [|by right].
      destruct (truthy s); [|by right].
      destruct (filter (fun e => startsWith s e = true) hand)
        as [|m ms] eqn:Hfilter; [by right|].
      cbn. rewrite <-Hfilter. intros Hin.
      apply list_elem_of_filter in Hin as [_ Hin]. by right.
  - intros Hhand.
    destruct (negb (truthy (default "" suit)) && (round <=? 1)%Z); [done|].
    destruct suit as [s|]; [|done]. destruct (truthy s); [|done].
    by destruct (filter (fun e => startsWith s e = true) hand).
  - intros -> Hround. apply Z.leb_le in Hround. by rewrite Hround.
  - intros Hsuit Hround. rewrite Hsuit. apply Z.leb_gt in Hround.
    rewrite Hround. cbn [negb andb].
    destruct suit as [s|]; [|done]. cbn in Hsuit. by rewrite Hsuit.
Qed.

Lemma allWordChars_dot s1 s2 : allWordChars (s1 +:+ String "." s2) = false.
Proof.
  induction s1 as [|c s1 IH]; [done|].
  rewrite append_cons. cbn [allWordChars]. rewrite IH. apply andb_false_r.
Qed.

(** X24. The extension of a file name is what follows its last dot: a file
    name that ends with a dot and one or more letters, digits or
    underscores has those as its extension, whatever comes before; and an
    extension that is found is not empty, holds such code units only and
    ends the file name after a dot. *)
Theorem getImageExtension_round_trip base extension filename :
  (truthy extension = true -> allWordChars extension = true ->
   getImageExtension (base +:+ String "." extension) = Some extension)
  /\ (getImageExtension filename = Some extension ->
      truthy extension = true /\ allWordChars extension = true
      /\ exists before, filename = before +:+ String "." extension).
Proof.
  split.
  - intros Hne Hword. induction base as [|c base IH].
    + change (getImageExtension (String "." extension) = Some extension).
      cbn [getImageExtension]. by rewrite Hne, Hword.
    + rewrite append_cons. cbn [getImageExtension].
      rewrite allWordChars_dot, andb_false_r. exact IH.
  - induction filename as [|c r IH]; [done|]. cbn [getImageExtension].
    destruct (Ascii.eqb_spec c ".") as [->|Hc]; cbn [andb].
    + destruct (truthy r) eqn:Hr; cbn [andb].
      * destruct (allWordChars r) eqn:Hw.
        -- intros [= <-]. split; [done|]. split; [done|]. by exists "".
        -- intros H. destruct (IH H) as (? & ? & before & ->).
           split; [done|]. split; [done|]. by exists (String "." before).
      * intros H. destruct (IH H) as (? & ? & before & ->).
        split; [done|]. split; [done|]. by exists (String "." before).
    + intros H. destruct (IH H) as (? & ? & before & ->).
      split; [done|]. split; [done|]. by exists (String c before).
Qed.

Lemma getImageExtension_round_trip_witness :
  getImageExtension "my.model.png" = Some "png".
Proof.
  apply (proj1 (getImageExtension_round_trip "my.model" "png" "")).
  - reflexivity.
  - reflexivity.
Defined.

(** X25. [grammarJoin] takes the last element off the array it is given:
    for an array that ends with [x] the result is [x] alone when [x] was
    the only element, else the other elements joined with commas, then
    [" and "], then [x], and the array is left without [x]; for the empty
    array the result is undefined. *)
Theorem grammarJoin_last (arr : list string) (x : string) :
  grammarJoin (arr ++ [x])%list
  = (Some (match arr with
           | [] => x
           | _ :: _ => join ", " arr +:+ " and " +:+ x
           end),
     arr)
  /\ grammarJoin [] = (None, []).
Proof.
  split; [|done]. unfold grammarJoin.
  rewrite last_snoc, removelast_last.
  by destruct arr.
Qed.

End UtilsFacts.

(** ** The shared utilities: player ids and names *)

Section PlayerFacts.
Import Utils.

Lemma getPlayersFrom_seq i steps :
  getPlayersFrom i steps = pretty <$> seq i steps.
Proof.
  revert i. induction steps as [|steps IH]; intros i; [done|].
  cbn. by rewrite IH.
Qed.

(** X26. The ids [getPlayers] makes are the decimal numerals of the
    positions, and they resolve to the names at those positions: there are
    as many ids as asked for, and the names resolved for the ids of as many
    players as there are names, with no current player, are the names. *)
Theorem getPlayers_resolve_names (names : list string) count :
  length (getPlayers count) = count
  /\ (forall i, (i < count)%nat -> getPlayers count !! i = Some (pretty i))
  /\ resolvePlayerNames (getPlayers (length names)) names None = names.
Proof.
  unfold getPlayers. rewrite !getPlayersFrom_seq. split; [|split].
  - by rewrite length_fmap, length_seq.
  - intros i Hi. by rewrite list_lookup_fmap, lookup_seq_lt.
  - unfold resolvePlayerNames. rewrite <-list_fmap_compose.
    apply list_eq. intros i. rewrite list_lookup_fmap.
    destruct (decide (i < length names)%nat) as [Hi|Hi].
    + rewrite lookup_seq_lt by done. cbn.
      unfold resolvePlayerName. rewrite bool_decide_eq_false_2 by done.
      rewrite index_parseInt_pretty.
      destruct (lookup_lt_is_Some_2 names i Hi) as [name ->]. done.
    + rewrite lookup_seq_ge by lia. cbn. symmetry.
      apply lookup_ge_None_2. lia.
Qed.

(** X27. The current player is shown as ["You"] and nobody else is: among
    the names resolved for the ids of [getPlayers], the one at the position
    of the current player is ["You"], and the one at every other position
    is the name at that position. *)
Theorem resolvePlayerNames_current (names : list string) count current i :
  (i < count)%nat ->
  resolvePlayerNames (getPlayers count) names (Some (pretty current)) !! i
  = Some (if decide (i = current) then "You" else default "" (names !! i)).
Proof.
  intros Hi. unfold resolvePlayerNames, getPlayers.
  rewrite getPlayersFrom_seq, <-list_fmap_compose, list_lookup_fmap.
  rewrite lookup_seq_lt by done. cbn. unfold resolvePlayerName. f_equal.
  destruct (decide (i = current)) as [->|Hne].
  - by rewrite bool_decide_eq_true_2.
  - rewrite bool_decide_eq_false_2.
    + by rewrite index_parseInt_pretty.
    + intros [= Heq]. by apply (inj pretty) in Heq.
Qed.

Lemma resolvePlayerNames_current_witness :
  resolvePlayerNames (getPlayers 3) ["Alice"; "Bob"; "Carol"] (Some "1")
    !! 1%nat
  = Some "You".
Proof.
  apply (resolvePlayerNames_current ["Alice"; "Bob"; "Carol"] 3 1 1). lia.
Defined.

(** X28. The dealt card is a card that was dealt, or empty: [getDealtCard]
    returns the empty string when no card was dealt, when nobody dealt or
    when the id of the dealer is no position of a dealt card, and else the
    card at the position the id of the dealer names. *)
Theorem getDealtCard_dealt dealt dealtBy :
  (getDealtCard dealt dealtBy = "" \/ getDealtCard dealt dealtBy ∈ dealt)
  /\ getDealtCard [] dealtBy = ""
  /\ getDealtCard dealt "" = ""
  /\ (forall i card, dealt !! i = Some card ->
        getDealtCard dealt (pretty i) = card).
Proof.
  unfold getDealtCard. repeat split.
  - destruct ((0 <? length dealt)%nat && truthy dealtBy); [|by left].
    unfold index. destruct (parseInt dealtBy) as [z|]; [|by left].
    destruct (z <? 0)%Z; [by left|].
    destruct (dealt !! Z.to_nat z) as [card|] eqn:Hcard; [|by left].
    right. by eapply list_elem_of_lookup_2.
  - by rewrite andb_false_r.
  - intros i card Hcard. rewrite index_parseInt_pretty, Hcard.
    assert (Hlen : (0 <? length dealt)%nat = true).
    { apply Nat.ltb_lt. apply lookup_lt_Some in Hcard. lia. }
    assert (Hid : truthy (pretty i) = true).
    { destruct (pretty i) eqn:Hp; [|done].
      pose proof (parseInt_pretty i) as Hparse. by rewrite Hp in Hparse. }
    by rewrite Hlen, Hid.
Qed.

End PlayerFacts.

Section UtilsWitnesses.
Import Utils.

Lemma getValidMoves_from_hand_witness :
  getValidMoves ["E2"; "T3"] None 1 "E3" = ["E3"]
  /\ getValidMoves ["E2"; "T3"] None 2 "E3" = ["E2"; "T3"].
Proof.
  destruct (getValidMoves_from_hand ["E2"; "T3"] None 1 "E3")
    as (_ & _ & Hfirst & _).
  destruct (getValidMoves_from_hand ["E2"; "T3"] None 2 "E3")
    as (_ & _ & _ & Hlater).
  split.
  - apply Hfirst; [reflexivity|lia].
  - apply Hlater; [reflexivity|lia].
Defined.

Lemma getPlayers_resolve_names_witness :
  getPlayers 3 !! 2%nat = Some "2"
  /\ resolvePlayerNames (getPlayers 2) ["Alice"; "Bob"] None
     = ["Alice"; "Bob"].
Proof.
  destruct (getPlayers_resolve_names ["Alice"; "Bob"] 3) as (_ & Hid & Hnames).
  split.
  - apply (Hid 2%nat). lia.
  - exact Hnames.
Defined.

Lemma getDealtCard_dealt_witness :
  getDealtCard ["E2"; "T3"] "1" = "T3".
Proof.
  destruct (getDealtCard_dealt ["E2"; "T3"] "1") as (_ & _ & _ & Hcard).
  apply (Hcard 1%nat "T3"). reflexivity.
Defined.

End UtilsWitnesses.
